(** * Praguematic: a client for the Prague sorted-waste-stations API

    A shallow embedding of [praguematic/_models.py] and
    [praguematic/_client.py], followed by the properties of the domain
    model, of the feature-collection algebra, of query serialization and of
    the retrieval loops.

    Conventions.
    - A Python [int] is a [Z]; an [Optional[T]] is an [option T]; a tri-state
      [Optional[bool]] is an [option bool] whose [None] is "unknown".
    - A [str] is a [string] holding the UTF-8 bytes of the text.  The only
      separators the code looks for are ASCII, and an ASCII byte never occurs
      inside a multi-byte UTF-8 sequence, so splitting and joining agree with
      Python's code-point view.
    - A call that may raise returns a [result]; a [dict] is a [gmap].
    - A [float] is carried by its [repr] text, the only observation the
      code under study makes of it (formatting into a query string). *)

From Stdlib Require Import ZArith QArith List Bool Ascii String Lia.
From stdpp Require Import gmap strings list pretty.
Import ListNotations.

#[local] Open Scope string_scope.
#[local] Open Scope Z_scope.

(** ** The Python runtime, as far as the code relies on it *)

Inductive exn : Type :=
  | ValueError
  | TypeError
  | KeyError
  | IndexError
  | AttributeError
  | ValidationError
  | PydanticSerializationError
  | HTTPStatusError (status : Z).

Inductive result (A : Type) : Type :=
  | Ok (a : A)
  | Raise (e : exn).
Arguments Ok {A} a.
Arguments Raise {A} e.

Definition bind {A B} (r : result A) (k : A -> result B) : result B :=
  match r with
  | Ok a => k a
  | Raise e => Raise e
  end.

Notation "'let*' x ':=' r 'in' k" := (bind r (fun x => k))
  (at level 10, x name, r at level 100, k at level 200).

(** Values that end up in a query dictionary or in a [str.join]. *)
Inductive pyval : Type :=
  | PStr (s : string)
  | PInt (z : Z)
  | PBool (b : bool).

#[global] Instance pyval_eq_dec : EqDecision pyval.
Proof. solve_decision. Defined.

(** The two built-ins whose full Unicode behaviour is not reproduced here:
    [str.casefold] and [int(str)] ([None] when [int] raises [ValueError]). *)
Class PyRuntime : Type := {
  casefold : string -> string;
  int_of_str : string -> option Z
}.

(** [s.split(sep)] for a one-character separator: never an empty list. *)
Fixpoint split (sep : ascii) (s : string) : list string :=
  match s with
  | EmptyString => [EmptyString]
  | String c rest =>
      if Ascii.eqb c sep then EmptyString :: split sep rest
      else match split sep rest with
           | piece :: pieces => String c piece :: pieces
           | [] => [String c EmptyString]
           end
  end.

(** [l[-1]] *)
Definition index_last {A} (l : list A) : result A :=
  match rev l with
  | x :: _ => Ok x
  | [] => Raise IndexError
  end.

(** [needle in haystack] on strings. *)
Fixpoint str_contains (needle haystack : string) : bool :=
  String.prefix needle haystack ||
  match haystack with
  | EmptyString => false
  | String _ rest => str_contains needle rest
  end.

(** [sep.join(items)]: every item has to be a [str]. *)
Fixpoint join_items (items : list pyval) : result (list string) :=
  match items with
  | [] => Ok []
  | PStr s :: rest => let* ss := join_items rest in Ok (s :: ss)
  | _ :: _ => Raise TypeError
  end.

Definition str_join (sep : string) (items : list pyval) : result string :=
  let* ss := join_items items in Ok (String.concat sep ss).

(** [any(...)] over tri-state answers: only [True] is truthy. *)
Definition truthy (o : option bool) : bool :=
  match o with
  | Some true => true
  | _ => false
  end.

Definition any {A} (f : A -> option bool) (l : list A) : bool :=
  existsb (fun x => truthy (f x)) l.

(** ** _models.py *)

Inductive EAccessibilityType := ACCESSIBLE | ONLY_FOR_HOUSE_RESIDENTS | UNKNOWN.

Definition EAccessibilityType_value (a : EAccessibilityType) : Z :=
  match a with
  | ACCESSIBLE => 1
  | ONLY_FOR_HOUSE_RESIDENTS => 2
  | UNKNOWN => 3
  end.

Inductive ETrashType :=
  | TINTED_GLASS | ELECTRIC_WASTE | METALS | BEVERAGE_CARTONS | PAPER
  | PLASTICS | CLEAR_GLASS | EDIBLE_FATS_AND_OILS | MULTICOMMODITY.

Inductive EPickDay :=
  | MONDAY | TUESDAY | WEDNESDAY | THURSDAY | FRIDAY | SATURDAY | SUNDAY.

Definition EPickDay_value (d : EPickDay) : string :=
  match d with
  | MONDAY => "Po"
  | TUESDAY => "Út"
  | WEDNESDAY => "St"
  | THURSDAY => "Čt"
  | FRIDAY => "Pá"
  | SATURDAY => "So"
  | SUNDAY => "Ne"
  end.

#[global] Instance EAccessibilityType_eq_dec : EqDecision EAccessibilityType.
Proof. solve_decision. Defined.
#[global] Instance ETrashType_eq_dec : EqDecision ETrashType.
Proof. solve_decision. Defined.

(** Dates and timestamps are only carried around. *)
Definition date := Z.
Definition datetime := Z.

Module Accessibility.
Record t := { description : string; id : EAccessibilityType }.
End Accessibility.

Module CleaningFrequency.
Record t := {
  duration : option string;
  frequency : option Z;
  id : option Z;
  pick_days : option string;
  next_pick : option date
}.

Definition period (self : t) : result (option Z) :=
  match id self with
  | None => Ok None
  | Some i =>
      if negb ((10 <=? i) && (i <=? 99)) then Raise ValueError
      else Ok (Some (i / 10))
  end.
End CleaningFrequency.

Module TrashType.
Record t := { description : option string; id : option ETrashType }.
End TrashType.

Module LastMeasurement.
Record t := {
  measured_at_utc : option datetime;
  percent_calculated : option Z;
  prediction_utc : option datetime
}.
End LastMeasurement.

Module Container.
Record t := {
  cleaning_frequency : option CleaningFrequency.t;
  container_type : option string;
  trash_type : option TrashType.t;
  last_measurement : option LastMeasurement.t;
  last_pick : option datetime;
  ksnko_id : option Z;
  container_id : option Z;
  sensor_code : option string;
  sensor_supplier : option string;
  sensor_id : option string;
  is_monitored : option bool
}.

Definition is_suited_for (self : t) (trash : ETrashType) : option bool :=
  match trash_type self with
  | None => None
  | Some ty =>
      match TrashType.id ty with
      | None => None
      | Some i => Some (bool_decide (i = trash))
      end
  end.

Definition is_picked_on `{PyRuntime} (self : t) (day : EPickDay) : option bool :=
  match cleaning_frequency self with
  | None => None
  | Some cf =>
      match CleaningFrequency.pick_days cf with
      | None => None
      | Some days =>
          Some (str_contains (casefold (EPickDay_value day)) (casefold days))
      end
  end.

(** [not self.is_monitored] *)
Definition not_monitored (self : t) : bool :=
  match is_monitored self with
  | Some true => false
  | _ => true
  end.

(** The threshold is an optional argument; [None] is a call without it. *)
Definition is_empty (self : t) (threshold : option Z) : option bool :=
  let threshold := default 5 threshold in
  if not_monitored self then None
  else match last_measurement self with
       | None => None
       | Some m =>
           match LastMeasurement.percent_calculated m with
           | None => None
           | Some p => Some (p <=? threshold)
           end
       end.

Definition is_full (self : t) (threshold : option Z) : option bool :=
  let threshold := default 95 threshold in
  if not_monitored self then None
  else match last_measurement self with
       | None => None
       | Some m =>
           match LastMeasurement.percent_calculated m with
           | None => None
           | Some p => Some (p >=? threshold)
           end
       end.
End Container.

Module WasteCollectionStation.
Record t := {
  id : Z;
  name : string;
  accessibility : option Accessibility.t;
  containers : option (list Container.t);
  district : option string;
  is_monitored : option bool;
  station_number : option string;
  updated_at : option datetime
}.

Definition district_number `{PyRuntime} (self : t) : result (option Z) :=
  match district self with
  | None => Ok None
  | Some d =>
      let* suffix := index_last (split "-" d) in
      match int_of_str suffix with
      | Some n => Ok (Some n)
      | None => Raise ValueError
      end
  end.

(** [Accessibility.id] is a required field, so the second test of the
    source's guard never fires on a validated object. *)
Definition is_accessible_for (self : t) (user_type : EAccessibilityType)
  : option bool :=
  match accessibility self with
  | None => None
  | Some a => Some (bool_decide (Accessibility.id a = user_type))
  end.

Definition has_container_for (self : t) (trash : ETrashType) : option bool :=
  match containers self with
  | None => None
  | Some conts => Some (any (fun c => Container.is_suited_for c trash) conts)
  end.
End WasteCollectionStation.

(** A [float], carried by its [repr] text. *)
Definition float := string.

Module Coordinates.
Record t := { longitude : float; latitude : float }.
End Coordinates.

Module Geometry.
Record t := { coordinates : option Coordinates.t; type : option string }.
End Geometry.

Module WasteCollectionStationFeature.
Record t := {
  type : option string;
  geometry : option Geometry.t;
  properties : option WasteCollectionStation.t
}.

Definition station (self : t) : option WasteCollectionStation.t :=
  properties self.
End WasteCollectionStationFeature.

Module WasteCollectionStationFeatureCollection.
Abbreviation Feature := WasteCollectionStationFeature.t.
Abbreviation properties := WasteCollectionStationFeature.properties.
Abbreviation name := WasteCollectionStation.name.

Record t := {
  type : option string;
  features : option (list Feature)
}.

(** [if self.features:] is false for [None] and for the empty list. *)
Definition nonempty (fs : option (list Feature)) : option (list Feature) :=
  match fs with
  | Some (f :: rest) => Some (f :: rest)
  | _ => None
  end.

(** [any(name == feature.properties.name for feature in features)]:
    stops at the first match, and fails on a feature without properties
    that it reaches before one. *)
Fixpoint any_same_name (n : string) (fs : list Feature) : result bool :=
  match fs with
  | [] => Ok false
  | feature :: rest =>
      match properties feature with
      | None => Raise AttributeError
      | Some s => if String.eqb n (name s) then Ok true else any_same_name n rest
      end
  end.

Definition contains (self : t) (value : Feature) : result bool :=
  match features self with
  | None => Ok false
  | Some fs =>
      match properties value with
      | None => Raise AttributeError
      | Some s => any_same_name (name s) fs
      end
  end.

Definition iter (self : t) : list Feature :=
  match features self with
  | None => []
  | Some fs => fs
  end.

Definition len (self : t) : Z :=
  match features self with
  | None => 0
  | Some fs => Z.of_nat (length fs)
  end.

(** The loop bodies of [__add__] and [__sub__], over the pair of the
    result list under construction and the set of names seen. *)
Definition keep_and_record (acc : list Feature * gset string) (feature : Feature)
  : list Feature * gset string :=
  let '(out, names) := acc in
  ((out ++ [feature])%list,
   match properties feature with
   | Some s => {[name s]} ∪ names
   | None => names
   end).

Definition record_name (names : gset string) (feature : Feature) : gset string :=
  match properties feature with
  | Some s => {[name s]} ∪ names
  | None => names
  end.

Definition keep_if_novel (names : gset string) (out : list Feature)
    (feature : Feature) : list Feature :=
  match properties feature with
  | Some s => if bool_decide (name s ∈ names) then out else (out ++ [feature])%list
  | None => out
  end.

Definition add (self other : t) : t :=
  let '(out, this_waste_station_names) :=
    match nonempty (features self) with
    | Some fs => fold_left keep_and_record fs ([], ∅)
    | None => ([], ∅)
    end in
  let out :=
    match nonempty (features other) with
    | Some fs => fold_left (keep_if_novel this_waste_station_names) fs out
    | None => out
    end in
  {| type := type self; features := Some out |}.

Definition sub (self other : t) : t :=
  match nonempty (features self) with
  | None => {| type := type self; features := Some [] |}
  | Some mine =>
      match nonempty (features other) with
      | None => {| type := type self; features := Some mine |}
      | Some theirs =>
          let other_waste_station_names := fold_left record_name theirs ∅ in
          let out := fold_left (keep_if_novel other_waste_station_names) mine [] in
          {| type := type self; features := Some out |}
      end
  end.

Definition stations (self : t) : list Feature :=
  match features self with
  | None => []
  | Some fs => fs
  end.
End WasteCollectionStationFeatureCollection.

(** ** _client.py *)

Abbreviation FeatureCollection := WasteCollectionStationFeatureCollection.t.

(** A validated parameter object.  A [set] field holds its elements in the
    order in which the set iterates; [model_fields_set] is pydantic's record
    of the fields the caller passed. *)
Module WasteCollectionStationServiceGetParams.
Record t := {
  coordinates : option Coordinates.t;
  range : option Z;
  offset : option Z;
  limit : option Z;
  district_numbers : option (list Z);
  accessibilities : option (list EAccessibilityType);
  only_monitored : option bool;
  ksnko_id : option Z;
  model_fields_set : gset string
}.

(** [WasteCollectionStationServiceGetParams()] *)
Definition defaults : t := {|
  coordinates := None;
  range := None;
  offset := Some 0;
  limit := Some 10000;
  district_numbers := None;
  accessibilities := None;
  only_monitored := None;
  ksnko_id := None;
  model_fields_set := ∅
|}.

(** The field constraints [ge=0] and [le=10000]. *)
Definition validated (p : t) : bool :=
  match offset p with Some o => 0 <=? o | None => true end &&
  match limit p with Some l => l <=? 10000 | None => true end.

Definition ser_coordinates (value : Coordinates.t) : result pyval :=
  Ok (PStr (Coordinates.latitude value ++ "," ++ Coordinates.longitude value)).

Definition ser_district_numbers (value : list Z) : result pyval :=
  let* s := str_join "," (map (fun number => PStr ("praha-" ++ pretty number)) value) in
  Ok (PStr s).

Definition ser_accessibilities (value : list EAccessibilityType) : result pyval :=
  let* s := str_join "," (map (fun a11y => PInt (EAccessibilityType_value a11y)) value) in
  Ok (PStr s).

(** One field of [model_dump(mode='json', by_alias=True, exclude_unset=True,
    exclude_none=True, exclude_defaults=True)]: the three exclusions are
    decided before the field's serializer runs, and a serializer that
    raises makes the dump fail. *)
Definition dump_field {A} (fields_set : gset string) (field alias : string)
    (value : option A) (is_default : A -> bool) (ser : A -> result pyval)
    (acc : result (gmap string pyval)) : result (gmap string pyval) :=
  let* d := acc in
  if negb (bool_decide (field ∈ fields_set)) then Ok d
  else match value with
       | None => Ok d
       | Some v =>
           if is_default v then Ok d
           else match ser v with
                | Ok x => Ok (<[alias := x]> d)
                | Raise _ => Raise PydanticSerializationError
                end
       end.

Definition never {A} (_ : A) : bool := false.
Definition ser_int (z : Z) : result pyval := Ok (PInt z).
Definition ser_bool (b : bool) : result pyval := Ok (PBool b).

Definition model_dump (p : t) : result (gmap string pyval) :=
  let fs := model_fields_set p in
  dump_field fs "ksnko_id" "ksnkoId" (ksnko_id p) never ser_int
  (dump_field fs "only_monitored" "onlyMonitored" (only_monitored p) never ser_bool
  (dump_field fs "accessibilities" "accessibilities" (accessibilities p) never
     ser_accessibilities
  (dump_field fs "district_numbers" "districts" (district_numbers p) never
     ser_district_numbers
  (dump_field fs "limit" "limit" (limit p) (Z.eqb 10000) ser_int
  (dump_field fs "offset" "offset" (offset p) (Z.eqb 0) ser_int
  (dump_field fs "range" "range" (range p) never ser_int
  (dump_field fs "coordinates" "latlng" (coordinates p) never ser_coordinates
     (Ok ∅)))))))).
End WasteCollectionStationServiceGetParams.

(** *** The transport, seen from the client

    A request carries the query dictionary and the headers.  A response
    carries the status and what [model_validate_json] makes of its text
    ([None] when validation fails).  A server answers a request knowing the
    requests that came before it.  It always answers with a response: a
    failure of the transport itself (a refused connection, a time-out),
    which the client does not catch, is not part of this model. *)
Record Request := {
  req_url : string;
  req_params : gmap string pyval;
  req_headers : gmap string string
}.

Record Response := {
  status_code : Z;
  parsed : option FeatureCollection
}.

Definition Server := list Request -> Request -> Response.

(** What a retrieval leaves behind: the requests sent (oldest first), the
    sleeps taken (in seconds) and the rate-limiter slots acquired (each with
    the limiter's rate and period). *)
Record World := {
  requests : list Request;
  sleeps : list Q;
  slots : list (Z * Z)
}.

Definition fresh : World := {| requests := []; sleeps := []; slots := [] |}.

(** [Response.is_success], the test behind [raise_for_status]. *)
Definition is_success (r : Response) : bool :=
  (200 <=? status_code r) && (status_code r <=? 299).

Inductive advance_result :=
  | Stop
  | Continue (param_dict : gmap string pyval)
  | Fault (e : exn).

Inductive ending := Exhausted | Aborted (e : exn) | Pending.

Record run := {
  pages : list FeatureCollection;
  ended : ending;
  world : World
}.

Module WasteCollectionStationService.
Module Params := WasteCollectionStationServiceGetParams.

Record t := {
  access_token : string;
  rate_limit_requests : Z;
  rate_limit_period : Z
}.

Definition BASE_URL := "https://api.golemio.cz/v2/sortedwastestations".

(** [__init__] with its default rate limit. *)
Definition init (access_token : string) : t :=
  {| access_token := access_token; rate_limit_requests := 8; rate_limit_period := 20 |}.

Definition _get_params (params : Params.t) : result (gmap string pyval) :=
  Params.model_dump params.

Definition _get_headers (self : t) : gmap string string :=
  {[ "X-Access-Token" := access_token self ]}.

(** The [while True] of [_get_waste_stations]; [None] when the fuel runs
    out before the loop returns or raises. *)
Fixpoint get_loop (self : t) (server : Server) (headers : gmap string string)
    (params : gmap string pyval) (max_timeout_retries : Z)
    (fuel : nat) (attemtp : Z) (w : World)
  : option (result FeatureCollection * World) :=
  match fuel with
  | O => None
  | S fuel =>
      let req := {| req_url := BASE_URL; req_params := params; req_headers := headers |} in
      let resp := server (requests w) req in
      let w := {| requests := (requests w ++ [req])%list;
                  sleeps := sleeps w; slots := slots w |} in
      if is_success resp then
        match parsed resp with
        | Some stations => Some (Ok stations, w)
        | None => Some (Raise ValidationError, w)
        end
      else if negb (status_code resp =? 429) || (attemtp >? max_timeout_retries) then
        Some (Raise (HTTPStatusError (status_code resp)), w)
      else
        let w := {| requests := requests w;
                    sleeps := (sleeps w ++ [Qmake (rate_limit_period self) 2])%list;
                    slots := slots w |} in
        get_loop self server headers params max_timeout_retries fuel (attemtp + 1) w
  end.

(** The loop body runs at most [max_timeout_retries + 1] times
    ([loop_returns] below), so this much fuel is never used up. *)
Definition _get_waste_stations (self : t) (server : Server)
    (headers : gmap string string) (params : gmap string pyval)
    (max_timeout_retries : Z) (w : World)
  : option (result FeatureCollection * World) :=
  get_loop self server headers params max_timeout_retries
    (S (Z.to_nat max_timeout_retries)) 1 w.

Definition get_waste_stations (self : t) (server : Server)
    (params : option Params.t) (max_timeout_retries : option Z) (w : World)
  : option (result FeatureCollection * World) :=
  let params := default Params.defaults params in
  let max_timeout_retries := default 1 max_timeout_retries in
  match _get_params params with
  | Raise e => Some (Raise e, w)
  | Ok d => _get_waste_stations self server (_get_headers self) d max_timeout_retries w
  end.

(** [param_dict['offset'] += n] *)
Definition add_offset (param_dict : gmap string pyval) (n : Z) : advance_result :=
  match param_dict !! "offset" with
  | None => Fault KeyError
  | Some (PInt o) => Continue (<["offset" := PInt (o + n)]> param_dict)
  | Some (PBool b) => Continue (<["offset" := PInt (Z.b2z b + n)]> param_dict)
  | Some (PStr _) => Fault TypeError
  end.

(** [if params.limit:] *)
Definition limit_set (limit : option Z) : option Z :=
  match limit with
  | Some l => if l =? 0 then None else Some l
  | None => None
  end.

(** What follows the [yield]: stop, or move the offset. *)
Definition advance (limit : option Z) (param_dict : gmap string pyval)
    (stations : FeatureCollection) : advance_result :=
  match WasteCollectionStationFeatureCollection.nonempty
          (WasteCollectionStationFeatureCollection.features stations) with
  | None => Stop
  | Some fs =>
      match limit_set limit with
      | Some l =>
          if Z.of_nat (length fs) <? l then Stop
          else add_offset param_dict l
      | None => add_offset param_dict (Z.of_nat (length fs))
      end
  end.

(** The generator's [while True], run for at most [fuel] pages. *)
Fixpoint iter_loop (self : t) (server : Server) (limiter : Z * Z)
    (headers : gmap string string) (limit : option Z) (max_timeout_retries : Z)
    (fuel : nat) (param_dict : gmap string pyval) (w : World) : run :=
  match fuel with
  | O => {| pages := []; ended := Pending; world := w |}
  | S fuel =>
      let w := {| requests := requests w; sleeps := sleeps w;
                  slots := (slots w ++ [limiter])%list |} in
      match _get_waste_stations self server headers param_dict max_timeout_retries w with
      | None => {| pages := []; ended := Pending; world := w |}
      | Some (Raise e, w) => {| pages := []; ended := Aborted e; world := w |}
      | Some (Ok stations, w) =>
          match advance limit param_dict stations with
          | Stop => {| pages := [stations]; ended := Exhausted; world := w |}
          | Fault e => {| pages := [stations]; ended := Aborted e; world := w |}
          | Continue param_dict =>
              let r := iter_loop self server limiter headers limit
                         max_timeout_retries fuel param_dict w in
              {| pages := stations :: pages r; ended := ended r; world := world r |}
          end
      end
  end.

Definition iter_waste_stations (self : t) (server : Server)
    (params : option Params.t) (limit_rate : option bool)
    (max_timeout_retries : option Z) (fuel : nat) (w : World) : run :=
  let limit_rate := default true limit_rate in
  let max_timeout_retries := default 3 max_timeout_retries in
  let headers := _get_headers self in
  let params := default Params.defaults params in
  match _get_params params with
  | Raise e => {| pages := []; ended := Aborted e; world := w |}
  | Ok param_dict =>
      let param_dict :=
        match param_dict !! "offset" with
        | None => <["offset" := PInt 0]> param_dict
        | Some _ => param_dict
        end in
      let limiter :=
        if limit_rate then (rate_limit_requests self, rate_limit_period self)
        else (9999, 1) in
      iter_loop self server limiter headers (Params.limit params)
        max_timeout_retries fuel param_dict w
  end.
End WasteCollectionStationService.

(** ** Runtime details needed to run the definitions on examples *)

(** The iteration order of a CPython [set] holding a few small non-negative
    [int]s.  Such a set is an open-addressing table of 8 slots; an [int]
    below [2^61 - 1] hashes to itself; a key goes to slot [hash & 7] and, when
    that slot is taken by another key, follows the probe sequence
    [i := (5 * i + 1 + perturb) & 7] with [perturb] shifted right by 5 at each
    step; iteration reads the slots in index order.  The table grows when a
    fifth key arrives, which is outside what is modelled here ([None]). *)
Module SmallIntSet.
Definition table := list (option Z).

Definition empty : table := repeat None 8.

Definition in_range (key : Z) : bool := (0 <=? key) && (key <? 2 ^ 61 - 1).

Fixpoint probe (fuel : nat) (t : table) (key i perturb : Z) : option table :=
  match fuel with
  | O => None
  | S fuel =>
      match t !! Z.to_nat i with
      | Some None => Some (<[Z.to_nat i := Some key]> t)
      | Some (Some other) =>
          if other =? key then Some t
          else let perturb := Z.shiftr perturb 5 in
               probe fuel t key (Z.land (i * 5 + 1 + perturb) 7) perturb
      | None => None
      end
  end.

Definition used (t : table) : Z := Z.of_nat (length (omap id t)).

Definition add (t : table) (key : Z) : option table :=
  if negb (in_range key) then None
  else match probe 32 t key (Z.land key 7) key with
       | Some t' => if 7 * 3 <=? used t' * 5 then None else Some t'
       | None => None
       end.

Fixpoint of_list (keys : list Z) (t : table) : option table :=
  match keys with
  | [] => Some t
  | key :: rest =>
      match add t key with
      | Some t' => of_list rest t'
      | None => None
      end
  end.

Definition iter (t : table) : list Z := omap id t.

(** The elements of [{k1, k2, ...}], in iteration order. *)
Definition literal (keys : list Z) : option (list Z) :=
  iter <$> of_list keys empty.

(** The elements of the set that a validated [set[int]] field holds, in
    iteration order, when the caller passes [{k1, k2, ...}]: validation
    walks the caller's set and adds each element to a new, empty set. *)
Definition validated (keys : list Z) : option (list Z) :=
  match literal keys with
  | Some order => literal order
  | None => None
  end.
End SmallIntSet.

(** A runtime for text made of ASCII letters and digits, where it agrees
    with CPython: [casefold] lowers [A-Z], [int] reads a non-empty run of
    decimal digits and rejects everything else. *)
Module AsciiRuntime.
Definition lower (c : ascii) : ascii :=
  let n := N_of_ascii c in
  if ((65 <=? n) && (n <=? 90))%N then ascii_of_N (n + 32) else c.

Fixpoint lower_all (s : string) : string :=
  match s with
  | EmptyString => EmptyString
  | String c rest => String (lower c) (lower_all rest)
  end.

Definition digit (c : ascii) : option Z :=
  let n := Z.of_N (N_of_ascii c) in
  if (48 <=? n) && (n <=? 57) then Some (n - 48) else None.

Fixpoint digits (acc : Z) (s : string) : option Z :=
  match s with
  | EmptyString => Some acc
  | String c rest =>
      match digit c with
      | Some d => digits (10 * acc + d) rest
      | None => None
      end
  end.

Definition read_int (s : string) : option Z :=
  match s with
  | EmptyString => None
  | _ => digits 0 s
  end.

Definition runtime : PyRuntime :=
  {| casefold := lower_all; int_of_str := read_int |}.
End AsciiRuntime.

(** ** Sample values *)

Definition blank_container : Container.t := {|
  Container.cleaning_frequency := None;
  Container.container_type := None;
  Container.trash_type := None;
  Container.last_measurement := None;
  Container.last_pick := None;
  Container.ksnko_id := None;
  Container.container_id := None;
  Container.sensor_code := None;
  Container.sensor_supplier := None;
  Container.sensor_id := None;
  Container.is_monitored := None
|}.

(** A monitored container whose last measurement reads [percent]. *)
Definition measured_container (percent : Z) : Container.t := {|
  Container.cleaning_frequency := None;
  Container.container_type := None;
  Container.trash_type := None;
  Container.last_measurement :=
    Some {| LastMeasurement.measured_at_utc := None;
            LastMeasurement.percent_calculated := Some percent;
            LastMeasurement.prediction_utc := None |};
  Container.last_pick := None;
  Container.ksnko_id := None;
  Container.container_id := None;
  Container.sensor_code := None;
  Container.sensor_supplier := None;
  Container.sensor_id := None;
  Container.is_monitored := Some true
|}.

Definition station_named (n : string) (district : option string)
    (containers : option (list Container.t)) : WasteCollectionStation.t := {|
  WasteCollectionStation.id := 1;
  WasteCollectionStation.name := n;
  WasteCollectionStation.accessibility := None;
  WasteCollectionStation.containers := containers;
  WasteCollectionStation.district := district;
  WasteCollectionStation.is_monitored := None;
  WasteCollectionStation.station_number := None;
  WasteCollectionStation.updated_at := None
|}.

Definition frequency_with_id (i : Z) : CleaningFrequency.t := {|
  CleaningFrequency.duration := None;
  CleaningFrequency.frequency := None;
  CleaningFrequency.id := Some i;
  CleaningFrequency.pick_days := None;
  CleaningFrequency.next_pick := None
|}.

(** A feature for the station called [n], and one without properties. *)
Definition feature_named (n : string) : WasteCollectionStationFeature.t := {|
  WasteCollectionStationFeature.type := Some "Feature";
  WasteCollectionStationFeature.geometry := None;
  WasteCollectionStationFeature.properties := Some (station_named n None None)
|}.

Definition feature_bare : WasteCollectionStationFeature.t := {|
  WasteCollectionStationFeature.type := Some "Feature";
  WasteCollectionStationFeature.geometry := None;
  WasteCollectionStationFeature.properties := None
|}.

Definition collection (fs : list WasteCollectionStationFeature.t) : FeatureCollection := {|
  WasteCollectionStationFeatureCollection.type := Some "FeatureCollection";
  WasteCollectionStationFeatureCollection.features := Some fs
|}.

(** A text without any hyphen. *)
Fixpoint hyphen_free (s : string) : bool :=
  match s with
  | EmptyString => true
  | String c rest => negb (Ascii.eqb c "-") && hyphen_free rest
  end.

(** *** The words of the collection algebra

    [named n fs]: some feature of [fs] carries a station called [n].
    [novel fs f]: [f] carries a station whose name no feature of [fs] has. *)
Definition has_station (f : WasteCollectionStationFeature.t) : bool :=
  match WasteCollectionStationFeature.properties f with
  | Some _ => true
  | None => false
  end.

Definition named (n : string) (fs : list WasteCollectionStationFeature.t) : bool :=
  existsb (fun g =>
             match WasteCollectionStationFeature.properties g with
             | Some s => String.eqb (WasteCollectionStation.name s) n
             | None => false
             end) fs.

Definition novel (fs : list WasteCollectionStationFeature.t)
    (f : WasteCollectionStationFeature.t) : bool :=
  match WasteCollectionStationFeature.properties f with
  | Some s => negb (named (WasteCollectionStation.name s) fs)
  | None => false
  end.

(** *** The serialized query, field by field

    The field names and their aliases, as declared on the parameter class. *)
Definition aliases : list (string * string) :=
  [("coordinates", "latlng"); ("range", "range"); ("offset", "offset");
   ("limit", "limit"); ("district_numbers", "districts");
   ("accessibilities", "accessibilities"); ("only_monitored", "onlyMonitored");
   ("ksnko_id", "ksnkoId")].

(** What a field contributes to the dump: nothing, a value, or a failure. *)
Definition emitted {A} (fields_set : gset string) (field : string)
    (value : option A) (is_default : A -> bool) (ser : A -> result pyval)
  : option (result pyval) :=
  if bool_decide (field ∈ fields_set) then
    match value with
    | Some v => if is_default v then None else Some (ser v)
    | None => None
    end
  else None.

Definition layer (alias : string) (e : option (result pyval))
    (d : gmap string pyval) : gmap string pyval :=
  match e with
  | Some (Ok x) => <[alias := x]> d
  | _ => d
  end.

Definition raises (e : option (result pyval)) : bool :=
  match e with
  | Some (Raise _) => true
  | _ => false
  end.

(** Parameter objects for the examples: the caller passed only the named
    fields.  The field validated from [{7, 10}] iterates as 10, 7
    ([SmallIntSet.validated]). *)
Definition params_districts (iteration_order : list Z)
  : WasteCollectionStationServiceGetParams.t := {|
  WasteCollectionStationServiceGetParams.coordinates := None;
  WasteCollectionStationServiceGetParams.range := None;
  WasteCollectionStationServiceGetParams.offset := Some 0;
  WasteCollectionStationServiceGetParams.limit := Some 10000;
  WasteCollectionStationServiceGetParams.district_numbers := Some iteration_order;
  WasteCollectionStationServiceGetParams.accessibilities := None;
  WasteCollectionStationServiceGetParams.only_monitored := None;
  WasteCollectionStationServiceGetParams.ksnko_id := None;
  WasteCollectionStationServiceGetParams.model_fields_set := {["district_numbers"]}
|}.

Definition params_districts_accessibilities (iteration_order : list Z)
    (a11y : list EAccessibilityType)
  : WasteCollectionStationServiceGetParams.t := {|
  WasteCollectionStationServiceGetParams.coordinates := None;
  WasteCollectionStationServiceGetParams.range := None;
  WasteCollectionStationServiceGetParams.offset := Some 0;
  WasteCollectionStationServiceGetParams.limit := Some 10000;
  WasteCollectionStationServiceGetParams.district_numbers := Some iteration_order;
  WasteCollectionStationServiceGetParams.accessibilities := Some a11y;
  WasteCollectionStationServiceGetParams.only_monitored := None;
  WasteCollectionStationServiceGetParams.ksnko_id := None;
  WasteCollectionStationServiceGetParams.model_fields_set :=
    {["district_numbers"; "accessibilities"]}
|}.

Definition params_near (c : Coordinates.t) (radius offset limit : Z)
  : WasteCollectionStationServiceGetParams.t := {|
  WasteCollectionStationServiceGetParams.coordinates := Some c;
  WasteCollectionStationServiceGetParams.range := Some radius;
  WasteCollectionStationServiceGetParams.offset := Some offset;
  WasteCollectionStationServiceGetParams.limit := Some limit;
  WasteCollectionStationServiceGetParams.district_numbers := None;
  WasteCollectionStationServiceGetParams.accessibilities := None;
  WasteCollectionStationServiceGetParams.only_monitored := None;
  WasteCollectionStationServiceGetParams.ksnko_id := None;
  WasteCollectionStationServiceGetParams.model_fields_set :=
    {["coordinates"; "range"; "offset"; "limit"]}
|}.

(** *** Servers for the retrieval properties *)

(** What a response that is not retried turns into. *)
Definition settle (resp : Response) : result FeatureCollection :=
  if is_success resp then
    match parsed resp with
    | Some stations => Ok stations
    | None => Raise ValidationError
    end
  else Raise (HTTPStatusError (status_code resp)).

Definition ok_response (page : FeatureCollection) : Response :=
  {| status_code := 200; parsed := Some page |}.

Definition throttled : Response := {| status_code := 429; parsed := None |}.

(** A mock that hands out the given responses in turn, whatever is asked,
    and fails with a 500 once they are used up. *)
Definition mock (responses : list Response) : Server :=
  fun log _ => nth (length log) responses {| status_code := 500; parsed := None |}.

(** [server] answers the requests numbered [base], [base + 1], ... with
    [responses], in turn. *)
Definition answers_in_turn (server : Server) (base : nat) (responses : list Response)
  : Prop :=
  forall i resp log req,
    nth_error responses i = Some resp -> length log = (base + i)%nat ->
    server log req = resp.

(** The request sent for a query dictionary. *)
Definition request_for (headers : gmap string string) (params : gmap string pyval)
  : Request :=
  {| req_url := WasteCollectionStationService.BASE_URL;
     req_params := params; req_headers := headers |}.

(** The world after [n] more requests [req] and [k] more sleeps of [nap]. *)
Definition after (w : World) (req : Request) (n : nat) (nap : Q) (k : nat) : World :=
  {| requests := (requests w ++ repeat req n)%list;
     sleeps := (sleeps w ++ repeat nap k)%list;
     slots := slots w |}.

(** Pagination, in the words of the spec: a page ends the sequence when it
    is empty, or when a non-zero limit is set and the page is shorter than
    it; otherwise the offset moves by the limit when one is set, and by the
    size of the page when none is. *)
Definition page_size (page : FeatureCollection) : Z :=
  WasteCollectionStationFeatureCollection.len page.

Definition ends_sequence (limit : option Z) (page : FeatureCollection) : bool :=
  (page_size page =? 0) ||
  match limit with
  | Some l => negb (l =? 0) && (page_size page <? l)
  | None => false
  end.

Definition stride (limit : option Z) (page : FeatureCollection) : Z :=
  match limit with
  | Some l => if l =? 0 then page_size page else l
  | None => page_size page
  end.

(** The query dictionaries of the successive requests: the offset starts at
    [o] and moves by the stride of each page received. *)
Fixpoint queries (limit : option Z) (d : gmap string pyval) (o : Z)
    (received : list FeatureCollection) : list (gmap string pyval) :=
  <["offset" := PInt o]> d ::
  match received with
  | [] => []
  | page :: rest => queries limit d (o + stride limit page) rest
  end.

(** A page of [n] copies of one feature. *)
Definition page_of (n : Z) : FeatureCollection :=
  collection (repeat (feature_named "Husova") (Z.to_nat n)).

(** The sleep before a retry, [rate_limit_period / 2] seconds, as an exact
    rational. *)
Definition half_period (self : WasteCollectionStationService.t) : Q :=
  Qmake (WasteCollectionStationService.rate_limit_period self) 2.

(** The offset of the first request: the caller's, when they set one, and
    0 otherwise. *)
Definition first_offset (p : WasteCollectionStationServiceGetParams.t) : Z :=
  if bool_decide ("offset" ∈ WasteCollectionStationServiceGetParams.model_fields_set p)
  then default 0 (WasteCollectionStationServiceGetParams.offset p)
  else 0.

(** The rate limiter's rate and period. *)
Definition limiter_for (self : WasteCollectionStationService.t)
    (limit_rate : option bool) : Z * Z :=
  if default true limit_rate
  then (WasteCollectionStationService.rate_limit_requests self,
        WasteCollectionStationService.rate_limit_period self)
  else (9999, 1).

(** The run that yields [yielded] and stops, after one request per page. *)
Definition finished_run (self : WasteCollectionStationService.t)
    (limit_rate : option bool) (w : World)
    (yielded : list FeatureCollection) (asked : list (gmap string pyval)) : run :=
  {| pages := yielded;
     ended := Exhausted;
     world := {| requests :=
                   (requests w ++
                    map (request_for (WasteCollectionStationService._get_headers self))
                      asked)%list;
                 sleeps := sleeps w;
                 slots := (slots w ++
                           repeat (limiter_for self limit_rate) (length yielded))%list |} |}.

(** *** More words for the collection algebra

    [stationed fs]: every feature of [fs] carries a station.
    [names fs]: the station names of [fs], in order, one per feature that
    carries a station. *)
Definition stationed (fs : list WasteCollectionStationFeature.t) : bool :=
  forallb has_station fs.

Definition names (fs : list WasteCollectionStationFeature.t) : list string :=
  omap (fun f => WasteCollectionStation.name <$>
                 WasteCollectionStationFeature.properties f) fs.

(** ** _models.py: the pick days of a cleaning frequency *)

Definition EPickDay_members : list EPickDay :=
  [MONDAY; TUESDAY; WEDNESDAY; THURSDAY; FRIDAY; SATURDAY; SUNDAY].

(** [EPickDay(value)]: the member with that value; [ValueError] when no
    member has it. *)
Definition EPickDay_of_value (value : string) : result EPickDay :=
  match find (fun d => String.eqb (EPickDay_value d) value) EPickDay_members with
  | Some d => Ok d
  | None => Raise ValueError
  end.

(** [[f(x) for x in l]] with a body that may raise: left to right, up to
    the first failure. *)
Fixpoint comprehension {A B} (f : A -> result B) (l : list A) : result (list B) :=
  match l with
  | [] => Ok []
  | x :: rest =>
      match f x with
      | Ok y =>
          match comprehension f rest with
          | Ok ys => Ok (y :: ys)
          | Raise e => Raise e
          end
      | Raise e => Raise e
      end
  end.

(** [CleaningFrequency.pick_days_list]; [strip] is the built-in
    [str.strip], whose notion of white space is Unicode's. *)
Definition pick_days_list (strip : string -> string) (self : CleaningFrequency.t)
  : result (list EPickDay) :=
  match CleaningFrequency.pick_days self with
  | None => Ok []
  | Some days =>
      comprehension (fun day => EPickDay_of_value (strip day)) (split "," days)
  end.

(** A text without the character [c]. *)
Fixpoint lacks (c : ascii) (s : string) : bool :=
  match s with
  | EmptyString => true
  | String c' rest => negb (Ascii.eqb c' c) && lacks c rest
  end.

(** [str.strip] on text whose white space is ASCII. *)
Module AsciiStrip.
Definition is_space (c : ascii) : bool :=
  let n := N_of_ascii c in
  (((9 <=? n) && (n <=? 13)) || ((28 <=? n) && (n <=? 32)))%N.

Fixpoint lstrip (s : string) : string :=
  match s with
  | EmptyString => EmptyString
  | String c rest => if is_space c then lstrip rest else s
  end.

Fixpoint rstrip (s : string) : string :=
  match s with
  | EmptyString => EmptyString
  | String c rest =>
      match rstrip rest with
      | EmptyString => if is_space c then EmptyString else String c EmptyString
      | kept => String c kept
      end
  end.

Definition strip (s : string) : string := rstrip (lstrip s).
End AsciiStrip.

Definition frequency_with_days (days : option string) : CleaningFrequency.t := {|
  CleaningFrequency.duration := None;
  CleaningFrequency.frequency := None;
  CleaningFrequency.id := None;
  CleaningFrequency.pick_days := days;
  CleaningFrequency.next_pick := None
|}.

(** A container of which only the cleaning frequency is known. *)
Definition cleaned_container (cf : CleaningFrequency.t) : Container.t := {|
  Container.cleaning_frequency := Some cf;
  Container.container_type := None;
  Container.trash_type := None;
  Container.last_measurement := None;
  Container.last_pick := None;
  Container.ksnko_id := None;
  Container.container_id := None;
  Container.sensor_code := None;
  Container.sensor_supplier := None;
  Container.sensor_id := None;
  Container.is_monitored := None
|}.

(** *** Words for runs against an arbitrary server

    [fetches r]: the retrievals the run [r] went through, one per page
    yielded and one more when a retrieval failed.
    [offset_only headers d q]: [q] is the request for [d] with some offset. *)
Definition fetches (r : run) : nat :=
  (length (pages r) + match ended r with Aborted _ => 1 | _ => 0 end)%nat.

Definition offset_only (headers : gmap string string) (d : gmap string pyval)
    (q : Request) : Prop :=
  exists o, q = request_for headers (<["offset" := PInt o]> d).

(** The limit the caller asked for, in the words of the spec ("a limit was
    requested", "an explicit limit was set"): the field's value when the
    caller passed one, and none when the caller left the field alone. *)
Definition requested_limit (p : WasteCollectionStationServiceGetParams.t) : option Z :=
  if bool_decide ("limit" ∈ WasteCollectionStationServiceGetParams.model_fields_set p)
  then WasteCollectionStationServiceGetParams.limit p
  else None.

(** * Properties *)

(** ** The domain model *)

Section TriState.
Context `{PyRuntime}.

(** The five predicates that answer from one optional chain do return
    "unknown" when a link of the chain is missing. *)
Lemma is_suited_for_unknown (c : Container.t) (trash : ETrashType) :
  Container.trash_type c = None \/
  (exists ty, Container.trash_type c = Some ty /\ TrashType.id ty = None) ->
  Container.is_suited_for c trash = None.
Proof.
  unfold Container.is_suited_for.
  intros [-> | (ty & -> & ->)]; reflexivity.
Qed.

Lemma is_picked_on_unknown (c : Container.t) (day : EPickDay) :
  Container.cleaning_frequency c = None \/
  (exists cf, Container.cleaning_frequency c = Some cf /\
              CleaningFrequency.pick_days cf = None) ->
  Container.is_picked_on c day = None.
Proof.
  unfold Container.is_picked_on.
  intros [-> | (cf & -> & ->)]; reflexivity.
Qed.

Lemma is_accessible_for_unknown (st : WasteCollectionStation.t)
    (user_type : EAccessibilityType) :
  WasteCollectionStation.accessibility st = None ->
  WasteCollectionStation.is_accessible_for st user_type = None.
Proof. unfold WasteCollectionStation.is_accessible_for. intros ->. reflexivity. Qed.

Lemma has_container_for_unknown (st : WasteCollectionStation.t) (trash : ETrashType) :
  WasteCollectionStation.containers st = None <->
  WasteCollectionStation.has_container_for st trash = None.
Proof.
  unfold WasteCollectionStation.has_container_for.
  destruct (WasteCollectionStation.containers st); split; congruence.
Qed.
End TriState.

(** [any] keeps no trace of an "unknown" answer. *)
Lemma any_all_unknown {A} (f : A -> option bool) (l : list A) :
  Forall (fun x => f x = None) l -> any f l = false.
Proof.
  unfold any. induction 1 as [| x l Hx _ IH]; simpl.
  - reflexivity.
  - rewrite Hx, IH. reflexivity.
Qed.

(** C3.  [has_container_for] does not keep to the rule that missing data
    gives "unknown": a station whose single container has no trash type
    answers [False], although the container itself answers "unknown" to
    [is_suited_for]; the [any] over the containers' answers turns "unknown"
    into [False]. *)
Theorem C3_unknown_container_reported_false :
  Container.is_suited_for blank_container PAPER = None /\
  WasteCollectionStation.has_container_for
    (station_named "Na Knizeci" None (Some [blank_container])) PAPER = Some false.
Proof. split; reflexivity. Qed.

Lemma leb_decide (a b : Z) : (a <=? b) = bool_decide (a <= b).
Proof.
  destruct (Z.leb_spec a b); symmetry;
    [apply bool_decide_eq_true_2 | apply bool_decide_eq_false_2]; lia.
Qed.

Lemma geb_decide (a b : Z) : (a >=? b) = bool_decide (a >= b).
Proof.
  rewrite Z.geb_leb, leb_decide. apply bool_decide_ext. lia.
Qed.

(** C7.  [is_empty] and [is_full] are "unknown" when the container is not
    monitored, has no last measurement, or the measurement has no percentage;
    otherwise they compare the percentage with the threshold, [<=] for empty
    and [>=] for full, and the thresholds default to 5 and 95. *)
Theorem C7_fill_level_thresholds (c : Container.t) (threshold : option Z) :
  (Container.is_monitored c <> Some true ->
   Container.is_empty c threshold = None /\ Container.is_full c threshold = None) /\
  (Container.last_measurement c = None ->
   Container.is_empty c threshold = None /\ Container.is_full c threshold = None) /\
  (forall m, Container.last_measurement c = Some m ->
             LastMeasurement.percent_calculated m = None ->
   Container.is_empty c threshold = None /\ Container.is_full c threshold = None) /\
  (forall m p, Container.is_monitored c = Some true ->
               Container.last_measurement c = Some m ->
               LastMeasurement.percent_calculated m = Some p ->
   Container.is_empty c threshold = Some (bool_decide (p <= default 5 threshold)) /\
   Container.is_full c threshold = Some (bool_decide (p >= default 95 threshold))) /\
  Container.is_empty c None = Container.is_empty c (Some 5) /\
  Container.is_full c None = Container.is_full c (Some 95).
Proof.
  unfold Container.is_empty, Container.is_full, Container.not_monitored.
  split; [| split; [| split; [| split; [| split]]]].
  - intros Hm. destruct (Container.is_monitored c) as [[] |]; [congruence | done ..].
  - intros ->. destruct (Container.is_monitored c) as [[] |]; done.
  - intros m -> ->. destruct (Container.is_monitored c) as [[] |]; done.
  - intros m p -> -> ->. rewrite leb_decide, geb_decide. done.
  - reflexivity.
  - reflexivity.
Qed.

Lemma C7_fill_level_thresholds_witness :
  Container.is_empty (measured_container 5) None = Some true /\
  Container.is_full (measured_container 5) None = Some false /\
  Container.is_empty (measured_container 95) (Some 50) = Some false /\
  Container.is_full (measured_container 95) None = Some true /\
  Container.is_empty blank_container None = None /\
  Container.is_full blank_container None = None.
Proof.
  pose proof (C7_fill_level_thresholds (measured_container 5) None)
    as (_ & _ & _ & H5 & _).
  pose proof (C7_fill_level_thresholds (measured_container 95) (Some 50))
    as (_ & _ & _ & H95 & _).
  pose proof (C7_fill_level_thresholds (measured_container 95) None)
    as (_ & _ & _ & H95' & _).
  pose proof (C7_fill_level_thresholds blank_container None) as (Hb & _).
  destruct (H5 _ 5 eq_refl eq_refl eq_refl) as [-> ->].
  destruct (H95 _ 95 eq_refl eq_refl eq_refl) as [-> _].
  destruct (H95' _ 95 eq_refl eq_refl eq_refl) as [_ ->].
  destruct Hb as [-> ->]; [discriminate |].
  repeat split.
Defined.

(** C8.  For an id in [10, 99] the period is [id // 10]; for any other
    integer id, reading [period] raises [ValueError]. *)
Theorem C8_period (cf : CleaningFrequency.t) (i : Z) :
  CleaningFrequency.id cf = Some i ->
  (10 <= i <= 99 -> CleaningFrequency.period cf = Ok (Some (i / 10))) /\
  (~ 10 <= i <= 99 -> CleaningFrequency.period cf = Raise ValueError).
Proof.
  intros Hid. unfold CleaningFrequency.period. rewrite Hid.
  split; intros Hi.
  - replace ((10 <=? i) && (i <=? 99)) with true by (symmetry; apply andb_true_iff; lia).
    reflexivity.
  - replace ((10 <=? i) && (i <=? 99)) with false; [reflexivity |].
    symmetry. apply andb_false_iff. lia.
Qed.

Lemma C8_period_witness :
  CleaningFrequency.period (frequency_with_id 42) = Ok (Some 4) /\
  CleaningFrequency.period (frequency_with_id 9) = Raise ValueError /\
  CleaningFrequency.period (frequency_with_id 100) = Raise ValueError /\
  CleaningFrequency.period (frequency_with_id (-15)) = Raise ValueError.
Proof.
  split; [| split; [| split]].
  - apply (C8_period (frequency_with_id 42) 42 eq_refl). lia.
  - apply (C8_period (frequency_with_id 9) 9 eq_refl). lia.
  - apply (C8_period (frequency_with_id 100) 100 eq_refl). lia.
  - apply (C8_period (frequency_with_id (-15)) (-15) eq_refl). lia.
Defined.

(** *** [district_number] *)

Lemma split_nonempty (sep : ascii) (s : string) : split sep s <> [].
Proof.
  destruct s as [| c rest]; simpl; [discriminate |].
  destruct (Ascii.eqb c sep); [discriminate |].
  destruct (split sep rest); discriminate.
Qed.

(** Splitting distributes over a separator in the middle. *)
Lemma split_app (sep : ascii) (p s : string) :
  split sep (p ++ String sep s) = (split sep p ++ split sep s)%list.
Proof.
  induction p as [| c p IH]; simpl.
  - rewrite Ascii.eqb_refl. reflexivity.
  - destruct (Ascii.eqb c sep).
    + rewrite IH. reflexivity.
    + rewrite IH. pose proof (split_nonempty sep p) as Hne.
      destruct (split sep p) as [| piece pieces]; [contradiction | reflexivity].
Qed.

Lemma split_hyphen_free (s : string) :
  hyphen_free s = true -> split "-" s = [s].
Proof.
  induction s as [| c s IH]; simpl; [reflexivity |].
  intros [Hc Hs]%andb_true_iff. apply negb_true_iff in Hc.
  rewrite Hc, (IH Hs). reflexivity.
Qed.

Lemma index_last_snoc {A} (l : list A) (x : A) : index_last (l ++ [x]) = Ok x.
Proof. unfold index_last. rewrite rev_app_distr. reflexivity. Qed.

Section District.
Context `{PyRuntime}.

(** C9.  The district number is what [int] makes of the text after the
    final hyphen of the district (of the whole text when it has no hyphen);
    when [int] rejects that text, reading [district_number] raises
    [ValueError] and yields no number. *)
Theorem C9_district_number (st : WasteCollectionStation.t) (d : string) :
  WasteCollectionStation.district st = Some d ->
  (forall prefix suffix,
     d = prefix ++ "-" ++ suffix -> hyphen_free suffix = true ->
     WasteCollectionStation.district_number st =
       match int_of_str suffix with
       | Some n => Ok (Some n)
       | None => Raise ValueError
       end) /\
  (hyphen_free d = true ->
     WasteCollectionStation.district_number st =
       match int_of_str d with
       | Some n => Ok (Some n)
       | None => Raise ValueError
       end).
Proof.
  intros Hd. unfold WasteCollectionStation.district_number. rewrite Hd.
  split.
  - intros prefix suffix -> Hfree.
    change ("-" ++ suffix) with (String "-" suffix).
    rewrite split_app, (split_hyphen_free suffix Hfree), index_last_snoc.
    reflexivity.
  - intros Hfree. rewrite (split_hyphen_free d Hfree). reflexivity.
Qed.
End District.

Lemma C9_district_number_witness :
  @WasteCollectionStation.district_number AsciiRuntime.runtime
    (station_named "Vinohradska" (Some "praha-7") None) = Ok (Some 7) /\
  @WasteCollectionStation.district_number AsciiRuntime.runtime
    (station_named "Vinohradska" (Some "praha-sever-10") None) = Ok (Some 10) /\
  @WasteCollectionStation.district_number AsciiRuntime.runtime
    (station_named "Vinohradska" (Some "praha-vii") None) = Raise ValueError /\
  @WasteCollectionStation.district_number AsciiRuntime.runtime
    (station_named "Vinohradska" (Some "praha-") None) = Raise ValueError /\
  @WasteCollectionStation.district_number AsciiRuntime.runtime
    (station_named "Vinohradska" (Some "12") None) = Ok (Some 12).
Proof.
  split; [| split; [| split; [| split]]].
  - exact (proj1 (@C9_district_number AsciiRuntime.runtime
                    (station_named "Vinohradska" (Some "praha-7") None) "praha-7" eq_refl)
             "praha" "7" eq_refl eq_refl).
  - exact (proj1 (@C9_district_number AsciiRuntime.runtime
                    (station_named "Vinohradska" (Some "praha-sever-10") None) "praha-sever-10" eq_refl)
             "praha-sever" "10" eq_refl eq_refl).
  - exact (proj1 (@C9_district_number AsciiRuntime.runtime
                    (station_named "Vinohradska" (Some "praha-vii") None) "praha-vii" eq_refl)
             "praha" "vii" eq_refl eq_refl).
  - exact (proj1 (@C9_district_number AsciiRuntime.runtime
                    (station_named "Vinohradska" (Some "praha-") None) "praha-" eq_refl)
             "praha" "" eq_refl eq_refl).
  - exact (proj2 (@C9_district_number AsciiRuntime.runtime
                    (station_named "Vinohradska" (Some "12") None) "12" eq_refl) eq_refl).
Defined.

(** ** The feature-collection algebra *)

Module Import Algebra.
Import WasteCollectionStationFeatureCollection.

Lemma fold_keep_and_record (fs out : list Feature) (names : gset string) :
  fold_left keep_and_record fs (out, names) =
  ((out ++ fs)%list, fold_left record_name fs names).
Proof.
  revert out names. induction fs as [| f fs IH]; intros out names; simpl.
  - rewrite app_nil_r. reflexivity.
  - unfold record_name at 2. rewrite IH, <- app_assoc. reflexivity.
Qed.

Lemma elem_of_fold_record_name (fs : list Feature) (names : gset string) (n : string) :
  n ∈ fold_left record_name fs names <-> named n fs = true \/ n ∈ names.
Proof.
  revert names. induction fs as [| f fs IH]; intros names; simpl.
  - unfold named. simpl. intuition discriminate.
  - rewrite IH. unfold named, record_name. simpl.
    destruct (properties f) as [s |]; simpl.
    + rewrite orb_true_iff, String.eqb_eq, elem_of_union, elem_of_singleton.
      intuition congruence.
    + tauto.
Qed.

Lemma known_name_decide (fs : list Feature) (n : string) :
  bool_decide (n ∈ fold_left record_name fs ∅) = named n fs.
Proof.
  destruct (named n fs) eqn:Hn.
  - apply bool_decide_eq_true_2, elem_of_fold_record_name. tauto.
  - apply bool_decide_eq_false_2. rewrite elem_of_fold_record_name, Hn.
    intros [? | []%not_elem_of_empty]. discriminate.
Qed.

Lemma fold_keep_if_novel (names : gset string) (fs out : list Feature) :
  fold_left (keep_if_novel names) fs out =
  (out ++ List.filter
            (fun f => match properties f with
                      | Some s => negb (bool_decide (name s ∈ names))
                      | None => false
                      end) fs)%list.
Proof.
  revert out. induction fs as [| f fs IH]; intros out; simpl.
  - rewrite app_nil_r. reflexivity.
  - rewrite IH. unfold keep_if_novel.
    destruct (properties f) as [s |]; [| reflexivity].
    destruct (bool_decide (name s ∈ names)); simpl; [reflexivity |].
    rewrite <- app_assoc. reflexivity.
Qed.

Lemma iter_nonempty (C : t) :
  match nonempty (features C) with
  | Some fs => fs = iter C /\ fs <> []
  | None => iter C = []
  end.
Proof.
  unfold iter. destruct (features C) as [[| f fs] |]; simpl;
    [reflexivity | split; [reflexivity | discriminate] | reflexivity].
Qed.

(** The whole of [__add__] in one equation. *)
Lemma add_features (A B : t) :
  features (add A B) = Some (iter A ++ List.filter (novel (iter A)) (iter B))%list.
Proof.
  unfold add.
  assert (HA : match nonempty (features A) with
               | Some fs => fold_left keep_and_record fs ([], ∅)
               | None => ([], ∅)
               end = (iter A, fold_left record_name (iter A) ∅)).
  { pose proof (iter_nonempty A) as H.
    destruct (nonempty (features A)) as [fs |].
    - destruct H as [<- _]. apply fold_keep_and_record.
    - rewrite H. reflexivity. }
  rewrite HA. simpl. f_equal.
  assert (HB : match nonempty (features B) with
               | Some fs => fold_left (keep_if_novel (fold_left record_name (iter A) ∅)) fs (iter A)
               | None => iter A
               end = fold_left (keep_if_novel (fold_left record_name (iter A) ∅))
                       (iter B) (iter A)).
  { pose proof (iter_nonempty B) as H.
    destruct (nonempty (features B)) as [fs |].
    - destruct H as [<- _]. reflexivity.
    - rewrite H. reflexivity. }
  rewrite HB, fold_keep_if_novel. f_equal.
  apply filter_ext. intros f. unfold novel.
  destruct (properties f) as [s |]; [| reflexivity].
  rewrite known_name_decide. reflexivity.
Qed.

(** The general case of [__sub__]. *)
Lemma sub_features (A B : t) :
  iter A <> [] -> iter B <> [] ->
  features (sub A B) = Some (List.filter (novel (iter B)) (iter A)).
Proof.
  intros HA HB. unfold sub.
  pose proof (iter_nonempty A) as H1. pose proof (iter_nonempty B) as H2.
  destruct (nonempty (features A)) as [mine |]; [| contradiction].
  destruct (nonempty (features B)) as [theirs |]; [| contradiction].
  destruct H1 as [-> _], H2 as [-> _]. simpl. f_equal.
  rewrite fold_keep_if_novel. simpl.
  apply filter_ext. intros f. unfold novel.
  destruct (properties f) as [s |]; [| reflexivity].
  rewrite known_name_decide. reflexivity.
Qed.

Lemma sub_right_empty (A B : t) :
  iter B = [] -> iter (sub A B) = iter A /\ (iter A <> [] -> sub A B = A).
Proof.
  intros HB. unfold sub.
  pose proof (iter_nonempty A) as H1. pose proof (iter_nonempty B) as H2.
  destruct (nonempty (features A)) as [mine |] eqn:EA.
  - destruct H1 as [-> Hne].
    destruct (nonempty (features B)) as [theirs |].
    + destruct H2 as [-> Hne']. contradiction.
    + split; [reflexivity |]. intros _.
      destruct A as [ty [fs |]]; unfold iter in *; simpl in *; [reflexivity | contradiction].
  - rewrite H1. split; [reflexivity | contradiction].
Qed.

Lemma sub_left_empty (A B : t) : iter A = [] -> features (sub A B) = Some [].
Proof.
  intros HA. unfold sub. pose proof (iter_nonempty A) as H1.
  destruct (nonempty (features A)) as [mine |]; [| reflexivity].
  destruct H1 as [-> Hne]. contradiction.
Qed.

Lemma novel_has_station (fs : list Feature) (f : Feature) :
  novel fs f = true -> has_station f = true.
Proof. unfold novel, has_station. destruct (properties f); congruence. Qed.

Lemma own_feature_not_novel (fs : list Feature) (f : Feature) :
  In f fs -> novel fs f = false.
Proof.
  intros Hin. unfold novel. destruct (properties f) as [s |] eqn:Hp; [| reflexivity].
  apply negb_false_iff. unfold named. apply existsb_exists.
  exists f. split; [assumption |]. rewrite Hp. apply String.eqb_refl.
Qed.

Lemma filter_none {A} (p : A -> bool) (l : list A) :
  (forall x, In x l -> p x = false) -> List.filter p l = [].
Proof.
  induction l as [| x l IH]; simpl; intros Hall; [reflexivity |].
  rewrite (Hall x) by auto. apply IH. auto.
Qed.

Lemma filter_filter_implied {A} (p q : A -> bool) (l : list A) :
  (forall x, q x = true -> p x = true) ->
  List.filter p (List.filter q l) = List.filter q l.
Proof.
  intros Himp. induction l as [| x l IH]; simpl; [reflexivity |].
  destruct (q x) eqn:Hq; simpl; [| assumption].
  rewrite (Himp x Hq), IH. reflexivity.
Qed.

Lemma filter_all_stationed (fs : list Feature) :
  Forall (fun f => properties f <> None) (List.filter has_station fs).
Proof.
  apply List.Forall_forall. intros f [_ Hf]%filter_In.
  unfold has_station in Hf. destruct (properties f); congruence.
Qed.
End Algebra.

Section CollectionAlgebra.
Import WasteCollectionStationFeatureCollection.

(** C5.  [A + B] keeps the type tag of [A]; its features are those of [A]
    in their order, followed by the features of [B] that carry a station
    whose name no feature of [A] has, in their order.  [A + A] has the members
    of [A]: the same sequence of features, and the same answer to every
    membership test. *)
Theorem C5_union (A B : FeatureCollection) :
  type (add A B) = type A /\
  features (add A B) = Some (iter A ++ List.filter (novel (iter A)) (iter B))%list /\
  iter (add A A) = iter A /\
  (forall v, has_station v = true -> contains (add A A) v = contains A v).
Proof.
  split.
  { unfold add.
    destruct (match nonempty (features A) with
              | Some fs => fold_left keep_and_record fs ([], ∅)
              | None => ([], ∅)
              end) as [out names]. reflexivity. }
  split; [apply add_features |].
  assert (Hself : features (add A A) = Some (iter A)).
  { rewrite add_features, (filter_none (novel (iter A)) (iter A)).
    - rewrite app_nil_r. reflexivity.
    - intros f. apply own_feature_not_novel. }
  split.
  - unfold iter at 1. rewrite Hself. reflexivity.
  - intros v Hv. unfold contains. rewrite Hself.
    unfold has_station in Hv. destruct (properties v) as [s |]; [| discriminate].
    unfold iter. destruct (features A); reflexivity.
Qed.

Lemma C5_union_witness :
  iter (add (collection [feature_named "a"; feature_named "b"])
            (collection [feature_named "b"; feature_named "c";
                         feature_named "a"; feature_named "d"])) =
    [feature_named "a"; feature_named "b"; feature_named "c"; feature_named "d"] /\
  contains (add (collection [feature_named "a"]) (collection [feature_named "a"]))
           (feature_named "a") = Ok true.
Proof.
  split.
  - unfold iter at 1.
    rewrite (proj1 (proj2 (C5_union
      (collection [feature_named "a"; feature_named "b"])
      (collection [feature_named "b"; feature_named "c";
                   feature_named "a"; feature_named "d"])))).
    reflexivity.
  - rewrite (proj2 (proj2 (proj2 (C5_union (collection [feature_named "a"])
                                           (collection [feature_named "a"]))))
               (feature_named "a") eq_refl).
    reflexivity.
Defined.

(** C6.  [A - B] keeps the type tag of [A].  Among the features that carry
    a station, it holds exactly those of [A] whose name no feature of [B]
    has, in the order of [A]; when both operands have features it holds
    nothing else.  When [B] has no features the result has the features of
    [A] and, [A] having some, equals [A]; when [A] has no features the result
    has none, whatever [B] is. *)
Theorem C6_difference (A B : FeatureCollection) :
  type (sub A B) = type A /\
  List.filter has_station (iter (sub A B)) = List.filter (novel (iter B)) (iter A) /\
  (iter A <> [] -> iter B <> [] ->
   iter (sub A B) = List.filter (novel (iter B)) (iter A)) /\
  (iter B = [] -> iter (sub A B) = iter A /\ (iter A <> [] -> sub A B = A)) /\
  (iter A = [] -> iter (sub A B) = [] /\ features (sub A B) = Some []).
Proof.
  assert (Hgen : iter A <> [] -> iter B <> [] ->
                 iter (sub A B) = List.filter (novel (iter B)) (iter A)).
  { intros HA HB. unfold iter at 1. rewrite (sub_features A B HA HB). reflexivity. }
  assert (Hleft : iter A = [] -> iter (sub A B) = [] /\ features (sub A B) = Some []).
  { intros HA. unfold iter at 1. rewrite (sub_left_empty A B HA). auto. }
  split; [| split; [| split; [| split]]].
  - unfold sub.
    destruct (nonempty (features A)); [| reflexivity].
    destruct (nonempty (features B)); reflexivity.
  - destruct (iter A) as [| a fs] eqn:EA.
    + destruct (Hleft eq_refl) as [-> _]. reflexivity.
    + destruct (iter B) as [| b gs] eqn:EB.
      * destruct (sub_right_empty A B EB) as [-> _]. rewrite EA.
        apply filter_ext. intros f. unfold novel, has_station.
        destruct (properties f); reflexivity.
      * rewrite Hgen by discriminate.
        apply filter_filter_implied, novel_has_station.
  - exact Hgen.
  - apply sub_right_empty.
  - exact Hleft.
Qed.

Lemma C6_difference_witness :
  iter (sub (collection [feature_named "a"; feature_named "b"; feature_named "c"])
            (collection [feature_named "d"; feature_named "b"])) =
    [feature_named "a"; feature_named "c"] /\
  sub (collection [feature_named "a"; feature_named "b"]) (collection []) =
    collection [feature_named "a"; feature_named "b"] /\
  iter (sub (collection []) (collection [feature_named "a"])) = [].
Proof.
  split; [| split].
  - rewrite (proj1 (proj2 (proj2 (C6_difference
      (collection [feature_named "a"; feature_named "b"; feature_named "c"])
      (collection [feature_named "d"; feature_named "b"])))));
      [reflexivity | discriminate | discriminate].
  - apply (proj1 (proj2 (proj2 (proj2 (C6_difference
      (collection [feature_named "a"; feature_named "b"]) (collection [])))))
      eq_refl). discriminate.
  - apply (proj2 (proj2 (proj2 (proj2 (C6_difference
      (collection []) (collection [feature_named "a"])))))). reflexivity.
Defined.

(** C10.  A feature without properties never contributes through the
    filtered operand: what [A + B] appends to the features of [A] are
    features of [B] that all carry a station, and when both operands have
    features every feature of [A - B] carries a station. *)
Theorem C10_bare_features_excluded (A B : FeatureCollection) :
  (exists appended,
     iter (add A B) = (iter A ++ appended)%list /\
     appended = List.filter has_station appended /\
     Forall (fun f => properties f <> None) appended /\
     (forall f, In f appended -> In f (iter B))) /\
  (iter A <> [] -> iter B <> [] ->
   Forall (fun f => properties f <> None) (iter (sub A B)) /\
   iter (sub A B) = List.filter has_station (iter (sub A B))).
Proof.
  split.
  - exists (List.filter (novel (iter A)) (iter B)).
    assert (Hst : List.filter (novel (iter A)) (iter B) =
                  List.filter has_station (List.filter (novel (iter A)) (iter B))).
    { symmetry. apply filter_filter_implied, novel_has_station. }
    split; [| split; [| split]].
    + unfold iter at 1. rewrite add_features. reflexivity.
    + exact Hst.
    + rewrite Hst. apply filter_all_stationed.
    + intros f Hf. apply filter_In in Hf. tauto.
  - intros HA HB. unfold iter at 1 2 3. rewrite (sub_features A B HA HB).
    assert (Hst : List.filter (novel (iter B)) (iter A) =
                  List.filter has_station (List.filter (novel (iter B)) (iter A))).
    { symmetry. apply filter_filter_implied, novel_has_station. }
    split; [rewrite Hst; apply filter_all_stationed | exact Hst].
Qed.

Lemma C10_bare_features_excluded_witness :
  Forall (fun f => properties f <> None)
    (iter (sub (collection [feature_bare; feature_named "a"])
               (collection [feature_named "b"]))) /\
  iter (sub (collection [feature_bare; feature_named "a"])
            (collection [feature_named "b"])) = [feature_named "a"] /\
  iter (add (collection [feature_named "a"])
            (collection [feature_bare; feature_named "b"])) =
    [feature_named "a"; feature_named "b"].
Proof.
  split; [| split].
  - apply (proj2 (C10_bare_features_excluded
             (collection [feature_bare; feature_named "a"])
             (collection [feature_named "b"]))); discriminate.
  - reflexivity.
  - reflexivity.
Defined.
End CollectionAlgebra.

(** ** Query serialization *)

Module Import Serialization.
Import WasteCollectionStationServiceGetParams.

Lemma join_items_strs {A} (f : A -> string) (l : list A) :
  join_items (map (fun x => PStr (f x)) l) = Ok (map f l).
Proof.
  induction l as [| x l IH]; simpl; [reflexivity |].
  rewrite IH. reflexivity.
Qed.

Lemma ser_district_numbers_eq (value : list Z) :
  ser_district_numbers value =
  Ok (PStr (String.concat "," (map (fun number => "praha-" ++ pretty number) value))).
Proof.
  unfold ser_district_numbers, str_join. rewrite join_items_strs. reflexivity.
Qed.

(** The accessibility serializer joins the integer values of the enum. *)
Lemma ser_accessibilities_raises (a : EAccessibilityType) (rest : list EAccessibilityType) :
  ser_accessibilities (a :: rest) = Raise TypeError.
Proof. reflexivity. Qed.

Lemma dump_field_emitted {A} (fs : gset string) (field alias : string)
    (value : option A) (is_default : A -> bool) (ser : A -> result pyval)
    (d : gmap string pyval) :
  dump_field fs field alias value is_default ser (Ok d) =
  if raises (emitted fs field value is_default ser)
  then Raise PydanticSerializationError
  else Ok (layer alias (emitted fs field value is_default ser) d).
Proof.
  unfold dump_field, emitted, layer, raises. simpl.
  destruct (bool_decide (field ∈ fs)); simpl; [| reflexivity].
  destruct value as [v |]; [| reflexivity].
  destruct (is_default v); [reflexivity |].
  destruct (ser v); reflexivity.
Qed.

Lemma lookup_layer (alias : string) (e : option (result pyval))
    (d : gmap string pyval) (k : string) :
  layer alias e d !! k =
  if decide (alias = k)
  then match e with Some (Ok x) => Some x | _ => d !! k end
  else d !! k.
Proof.
  unfold layer. destruct e as [[x | err] |]; case_decide; subst;
    rewrite ?lookup_insert_eq, ?lookup_insert_ne by assumption; reflexivity.
Qed.

Lemma emitted_set {A} (fs : gset string) (field : string) (value : option A)
    (is_default : A -> bool) (ser : A -> result pyval) (r : result pyval) :
  emitted fs field value is_default ser = Some r -> field ∈ fs.
Proof.
  unfold emitted. case_bool_decide; [tauto | discriminate].
Qed.

Lemma emitted_unset {A} (fs : gset string) (field : string) (value : option A)
    (is_default : A -> bool) (ser : A -> result pyval) :
  field ∉ fs -> emitted fs field value is_default ser = None.
Proof.
  unfold emitted. intros Hf. case_bool_decide; [contradiction | reflexivity].
Qed.

Lemma emitted_never {A} (fs : gset string) (field : string) (v : A)
    (ser : A -> result pyval) :
  field ∈ fs -> emitted fs field (Some v) never ser = Some (ser v).
Proof.
  unfold emitted. intros Hf. case_bool_decide; [reflexivity | contradiction].
Qed.

Lemma ser_int_not_raises (fs : gset string) (field : string) (value : option Z)
    (is_default : Z -> bool) :
  raises (emitted fs field value is_default ser_int) = false.
Proof.
  unfold emitted. destruct (bool_decide _); [| reflexivity].
  destruct value as [v |]; [| reflexivity]. destruct (is_default v); reflexivity.
Qed.

Lemma ser_bool_not_raises (fs : gset string) (field : string) (value : option bool) :
  raises (emitted fs field value never ser_bool) = false.
Proof.
  unfold emitted. destruct (bool_decide _); [| reflexivity].
  destruct value as [v |]; reflexivity.
Qed.

Lemma ser_coordinates_not_raises (fs : gset string) (value : option Coordinates.t) :
  raises (emitted fs "coordinates" value never ser_coordinates) = false.
Proof.
  unfold emitted. destruct (bool_decide _); [| reflexivity].
  destruct value as [v |]; reflexivity.
Qed.

Lemma ser_district_numbers_not_raises (fs : gset string) (value : option (list Z)) :
  raises (emitted fs "district_numbers" value never ser_district_numbers) = false.
Proof.
  unfold emitted. destruct (bool_decide _); [| reflexivity].
  destruct value as [v |]; [| reflexivity]. simpl.
  rewrite ser_district_numbers_eq. reflexivity.
Qed.

(** The dump in closed form: it fails exactly when the accessibility
    serializer does, and otherwise stacks one layer per field. *)
Lemma model_dump_layers (p : t) :
  let fs := model_fields_set p in
  let e_acc := emitted fs "accessibilities" (accessibilities p) never ser_accessibilities in
  model_dump p =
  if raises e_acc then Raise PydanticSerializationError
  else Ok (layer "ksnkoId" (emitted fs "ksnko_id" (ksnko_id p) never ser_int)
          (layer "onlyMonitored" (emitted fs "only_monitored" (only_monitored p) never ser_bool)
          (layer "accessibilities" e_acc
          (layer "districts"
             (emitted fs "district_numbers" (district_numbers p) never ser_district_numbers)
          (layer "limit" (emitted fs "limit" (limit p) (Z.eqb 10000) ser_int)
          (layer "offset" (emitted fs "offset" (offset p) (Z.eqb 0) ser_int)
          (layer "range" (emitted fs "range" (range p) never ser_int)
          (layer "latlng" (emitted fs "coordinates" (coordinates p) never ser_coordinates)
             ∅)))))))).
Proof.
  intros fs e_acc. unfold model_dump. fold fs.
  rewrite dump_field_emitted, ser_coordinates_not_raises.
  rewrite dump_field_emitted, ser_int_not_raises.
  rewrite dump_field_emitted, ser_int_not_raises.
  rewrite dump_field_emitted, ser_int_not_raises.
  rewrite dump_field_emitted, ser_district_numbers_not_raises.
  rewrite dump_field_emitted. fold e_acc.
  destruct (raises e_acc); [reflexivity |].
  rewrite dump_field_emitted, ser_bool_not_raises.
  rewrite dump_field_emitted, ser_int_not_raises.
  reflexivity.
Qed.
End Serialization.

Section QuerySerialization.
Import WasteCollectionStationServiceGetParams.
Import WasteCollectionStationService.

Lemma lookup_layer_ne (alias : string) (e : option (result pyval))
    (d : gmap string pyval) (k : string) :
  alias <> k -> layer alias e d !! k = d !! k.
Proof. intros Hne. rewrite lookup_layer. case_decide; [contradiction | reflexivity]. Qed.

Lemma lookup_layer_none (alias : string) (d : gmap string pyval) (k : string) :
  layer alias None d !! k = d !! k.
Proof. reflexivity. Qed.

Lemma lookup_layer_ok (alias : string) (x : pyval) (d : gmap string pyval) :
  layer alias (Some (Ok x)) d !! alias = Some x.
Proof. apply lookup_insert_eq. Qed.

Lemma lookup_layer_inv (alias : string) (e : option (result pyval))
    (d : gmap string pyval) (k : string) (v : pyval) :
  layer alias e d !! k = Some v ->
  (k = alias /\ e = Some (Ok v)) \/ d !! k = Some v.
Proof.
  rewrite lookup_layer. case_decide; [| tauto].
  destruct e as [[x | err] |]; [| tauto ..].
  intros [= ->]. left. auto.
Qed.

Ltac skip_layers :=
  repeat (rewrite lookup_layer_ne by discriminate).

(** C4, as the code has it.  When the accessibility filter is not part of
    the dump, serialization succeeds; a successful dump holds only aliases of
    fields the caller set, and no alias of a field the caller left unset;
    coordinates appear under [latlng] as ["<lat>,<lon>"]; district numbers
    appear under [districts] as the comma-joined ["praha-<n>"] tokens, in the
    order in which the validated set iterates; for [{7, 10}], whose validated
    set iterates as 10, 7, that is [praha-10,praha-7]. *)
Theorem C4_query_serialization (p : Params.t) :
  (accessibilities p = None \/ "accessibilities" ∉ model_fields_set p ->
   exists d, _get_params p = Ok d) /\
  (forall d, _get_params p = Ok d ->
     (forall k v, d !! k = Some v ->
        exists field, In (field, k) aliases /\ field ∈ model_fields_set p) /\
     (forall field alias, In (field, alias) aliases ->
        field ∉ model_fields_set p -> d !! alias = None) /\
     (forall c, "coordinates" ∈ model_fields_set p -> coordinates p = Some c ->
        d !! "latlng" =
        Some (PStr (Coordinates.latitude c ++ "," ++ Coordinates.longitude c))) /\
     (forall ns, "district_numbers" ∈ model_fields_set p ->
        district_numbers p = Some ns ->
        d !! "districts" =
        Some (PStr (String.concat ","
                      (map (fun number => "praha-" ++ pretty number) ns))))) /\
  (forall order, SmallIntSet.validated [7; 10] = Some order ->
     order = [10; 7] /\
     _get_params (params_districts order) =
     Ok {[ "districts" := PStr "praha-10,praha-7" ]}).
Proof.
  unfold _get_params. pose proof (model_dump_layers p) as Hdump. simpl in Hdump.
  split; [| split]; cycle 2.
  { intros order Horder. vm_compute in Horder. injection Horder as <-.
    split; [reflexivity | vm_compute; reflexivity]. }
  - intros Hacc. rewrite Hdump.
    replace (raises _) with false; [eauto |].
    destruct Hacc as [-> | Hunset].
    + unfold emitted. destruct (bool_decide _); reflexivity.
    + rewrite emitted_unset by assumption. reflexivity.
  - intros d Hd. rewrite Hdump in Hd.
    destruct (raises _); [discriminate |]. injection Hd as <-.
    split; [| split; [| split]].
    + intros k v Hk.
      repeat (apply lookup_layer_inv in Hk as [[-> Hk] | Hk];
              [apply emitted_set in Hk; eexists; split; [| exact Hk]; simpl; tauto |]).
      rewrite lookup_empty in Hk. discriminate.
    + intros field alias Hin Hunset. simpl in Hin.
      repeat (destruct Hin as [[= <- <-] | Hin];
              [skip_layers; rewrite (emitted_unset _ _ _ _ _ Hunset), lookup_layer_none;
               skip_layers; apply lookup_empty |]).
      contradiction.
    + intros c Hset ->. skip_layers.
      rewrite (emitted_never _ _ _ _ Hset). apply lookup_layer_ok.
    + intros ns Hset ->. skip_layers.
      rewrite (emitted_never _ _ _ _ Hset), ser_district_numbers_eq.
      apply lookup_layer_ok.
Qed.
End QuerySerialization.

Section QueryExamples.
Import WasteCollectionStationServiceGetParams.
Import WasteCollectionStationService.

Lemma only_districts_set (order : list Z) (field : string) :
  field = "district_numbers" -> field ∈ model_fields_set (params_districts order).
Proof. intros ->. cbn. apply elem_of_singleton_2. reflexivity. Qed.

Lemma only_districts_unset (order : list Z) (field : string) :
  field <> "district_numbers" -> field ∉ model_fields_set (params_districts order).
Proof. intros Hne Hin. cbn in Hin. apply elem_of_singleton_1 in Hin. contradiction. Qed.

Lemma near_set (c : Coordinates.t) (radius offset limit : Z) (field : string) :
  In field ["coordinates"; "range"; "offset"; "limit"] ->
  field ∈ model_fields_set (params_near c radius offset limit).
Proof.
  intros Hin. cbn. rewrite !elem_of_union, !elem_of_singleton.
  simpl in Hin. intuition congruence.
Qed.

Lemma near_unset (c : Coordinates.t) (radius offset limit : Z) (field : string) :
  ~ In field ["coordinates"; "range"; "offset"; "limit"] ->
  field ∉ model_fields_set (params_near c radius offset limit).
Proof.
  intros Hout Hin. apply Hout. cbn in Hin.
  rewrite !elem_of_union, !elem_of_singleton in Hin.
  simpl. intuition congruence.
Qed.

Lemma C4_query_serialization_witness :
  (exists d, _get_params (params_districts [10; 7]) = Ok d /\
             d !! "districts" = Some (PStr "praha-10,praha-7") /\
             d !! "limit" = None /\ d !! "offset" = None /\
             d !! "accessibilities" = None) /\
  (exists d, _get_params
               (params_near {| Coordinates.longitude := "14.42";
                               Coordinates.latitude := "50.08" |} 500 0 100) = Ok d /\
             d !! "latlng" = Some (PStr "50.08,14.42") /\
             d !! "districts" = None).
Proof.
  split.
  - destruct (proj1 (C4_query_serialization (params_districts [10; 7]))
                (or_introl eq_refl)) as [d Hd].
    destruct (proj1 (proj2 (C4_query_serialization (params_districts [10; 7]))) d Hd)
      as (_ & Hunset & _ & Hdistricts).
    exists d. split; [exact Hd |]. split; [| split; [| split]].
    + exact (Hdistricts [10; 7] (only_districts_set [10; 7] "district_numbers" eq_refl)
               eq_refl).
    + refine (Hunset "limit" "limit" _ (only_districts_unset [10; 7] "limit" _));
        [simpl; tauto | discriminate].
    + refine (Hunset "offset" "offset" _ (only_districts_unset [10; 7] "offset" _));
        [simpl; tauto | discriminate].
    + refine (Hunset "accessibilities" "accessibilities" _
                (only_districts_unset [10; 7] "accessibilities" _));
        [simpl; tauto | discriminate].
  - destruct (proj1 (C4_query_serialization
                (params_near {| Coordinates.longitude := "14.42";
                                Coordinates.latitude := "50.08" |} 500 0 100))
                (or_introl eq_refl)) as [d Hd].
    destruct (proj1 (proj2 (C4_query_serialization _)) d Hd)
      as (_ & Hunset & Hlatlng & _).
    exists d. split; [exact Hd |]. split.
    + refine (Hlatlng _ (near_set _ _ _ _ "coordinates" _) eq_refl).
      simpl. tauto.
    + refine (Hunset "district_numbers" "districts" _
                (near_unset _ _ _ _ "district_numbers" _)); simpl; [tauto |].
      intuition discriminate.
Defined.

(** C4 as stated does not hold.  The set validated from [{7, 10}] iterates
    as 10, 7, so the districts read [praha-10,praha-7]; and serializing a
    non-empty set of accessibilities fails, because the values joined are
    integers. *)
Lemma C4_counterexample :
  SmallIntSet.validated [7; 10] = Some [10; 7] /\
  _get_params (params_districts [10; 7]) =
    Ok {[ "districts" := PStr "praha-10,praha-7" ]} /\
  PStr "praha-10,praha-7" <> PStr "praha-7,praha-10" /\
  ser_accessibilities [ACCESSIBLE] = Raise TypeError /\
  _get_params (params_districts_accessibilities [10; 7] [ACCESSIBLE]) =
    Raise PydanticSerializationError.
Proof.
  split; [reflexivity |]. split; [vm_compute; reflexivity |].
  split; [discriminate |]. split; [reflexivity |].
  vm_compute. reflexivity.
Qed.
End QueryExamples.

(** ** Retrieval with retry on throttling *)

Section Retry.
Import WasteCollectionStationService.

Variable self : WasteCollectionStationService.t.
Variable server : Server.
Variable headers : gmap string string.
Variable params : gmap string pyval.
Variable max_timeout_retries : Z.

Let req := request_for headers params.
Let nap := Qmake (rate_limit_period self) 2.
Let loop := get_loop self server headers params max_timeout_retries.

(** The retries still allowed when the loop is at [attemtp]. *)
Let left_at (attemtp : Z) : nat := Z.to_nat (max_timeout_retries - attemtp + 1).

(** A response other than 429 ends the loop at once. *)
Lemma loop_settles (fuel : nat) (attemtp : Z) (w : World) :
  status_code (server (requests w) req) <> 429 ->
  loop (S fuel) attemtp w =
  Some (settle (server (requests w) req), after w req 1 nap 0).
Proof.
  intros Hstatus. unfold loop, settle, after, req, request_for in *. simpl.
  rewrite app_nil_r.
  destruct (is_success _).
  - destruct (parsed _); reflexivity.
  - apply Z.eqb_neq in Hstatus. rewrite Hstatus. reflexivity.
Qed.

(** A 429 is retried after a sleep while retries are left, and raised
    otherwise. *)
Lemma loop_throttled (fuel : nat) (attemtp : Z) (w : World) :
  status_code (server (requests w) req) = 429 ->
  loop (S fuel) attemtp w =
  if attemtp >? max_timeout_retries
  then Some (Raise (HTTPStatusError 429), after w req 1 nap 0)
  else loop fuel (attemtp + 1) (after w req 1 nap 1).
Proof.
  intros Hstatus. unfold loop, after, req, request_for in *. simpl.
  unfold is_success. rewrite Hstatus. simpl. rewrite app_nil_r.
  destruct (attemtp >? max_timeout_retries); reflexivity.
Qed.

Lemma after_after (w : World) (n k : nat) :
  after (after w req 1 nap 1) req n nap k = after w req (S n) nap (S k).
Proof. unfold after. simpl. rewrite <- !app_assoc. reflexivity. Qed.

(** [n] throttled answers followed by another answer, with at least [n]
    retries left: the loop sleeps [n] times and settles on that answer. *)
Lemma loop_recovers (n : nat) :
  forall (fuel : nat) (attemtp : Z) (w : World),
    (forall i, (i < n)%nat ->
               status_code (server (requests w ++ repeat req i)%list req) = 429) ->
    status_code (server (requests w ++ repeat req n)%list req) <> 429 ->
    (n <= left_at attemtp)%nat -> (n < fuel)%nat ->
    loop fuel attemtp w =
    Some (settle (server (requests w ++ repeat req n)%list req),
          after w req (S n) nap n).
Proof.
  induction n as [| n IH]; intros fuel attemtp w Hthrottle Hlast Hleft Hfuel.
  - destruct fuel as [| fuel]; [lia |].
    simpl in Hlast. rewrite app_nil_r in Hlast.
    rewrite (loop_settles fuel attemtp w Hlast). simpl. rewrite app_nil_r.
    reflexivity.
  - destruct fuel as [| fuel]; [lia |].
    assert (Hfirst : status_code (server (requests w) req) = 429).
    { specialize (Hthrottle O ltac:(lia)). simpl in Hthrottle.
      rewrite app_nil_r in Hthrottle. exact Hthrottle. }
    rewrite (loop_throttled fuel attemtp w Hfirst).
    unfold left_at in Hleft.
    replace (attemtp >? max_timeout_retries) with false
      by (symmetry; rewrite Z.gtb_ltb; apply Z.ltb_ge; lia).
    rewrite (IH fuel (attemtp + 1) (after w req 1 nap 1)).
    + rewrite after_after. unfold after at 1. simpl.
      rewrite <- app_assoc. reflexivity.
    + intros i Hi. unfold after. simpl. rewrite <- app_assoc.
      apply (Hthrottle (S i)). lia.
    + unfold after. simpl. rewrite <- app_assoc. exact Hlast.
    + unfold left_at. lia.
    + lia.
Qed.

(** More throttled answers than retries left: the loop uses the retries up
    and raises the last 429. *)
Lemma loop_gives_up :
  forall (r fuel : nat) (attemtp : Z) (w : World),
    r = left_at attemtp ->
    (forall i, (i <= r)%nat ->
               status_code (server (requests w ++ repeat req i)%list req) = 429) ->
    (r < fuel)%nat ->
    loop fuel attemtp w =
    Some (Raise (HTTPStatusError 429), after w req (S r) nap r).
Proof.
  induction r as [| r IH]; intros fuel attemtp w Hr Hthrottle Hfuel;
    (destruct fuel as [| fuel]; [lia |]);
    assert (Hfirst : status_code (server (requests w) req) = 429)
      by (specialize (Hthrottle O ltac:(lia)); simpl in Hthrottle;
          rewrite app_nil_r in Hthrottle; exact Hthrottle);
    rewrite (loop_throttled fuel attemtp w Hfirst); unfold left_at in Hr.
  - replace (attemtp >? max_timeout_retries) with true
      by (symmetry; rewrite Z.gtb_ltb; apply Z.ltb_lt; lia).
    reflexivity.
  - replace (attemtp >? max_timeout_retries) with false
      by (symmetry; rewrite Z.gtb_ltb; apply Z.ltb_ge; lia).
    rewrite (IH fuel (attemtp + 1) (after w req 1 nap 1)).
    + rewrite after_after. reflexivity.
    + unfold left_at. lia.
    + intros i Hi. unfold after. simpl. rewrite <- app_assoc.
      apply (Hthrottle (S i)). lia.
    + lia.
Qed.

(** Whatever the server does, the loop returns or raises before it has run
    more often than the retries left plus one. *)
Lemma loop_returns (fuel : nat) :
  forall (attemtp : Z) (w : World),
    (left_at attemtp < fuel)%nat -> exists r, loop fuel attemtp w = Some r.
Proof.
  induction fuel as [| fuel IH]; intros attemtp w Hfuel; [lia |].
  destruct (decide (status_code (server (requests w) req) = 429)) as [H429 | Hother].
  - rewrite (loop_throttled fuel attemtp w H429).
    destruct (attemtp >? max_timeout_retries) eqn:Hgt; [eauto |].
    apply IH. unfold left_at in *.
    rewrite Z.gtb_ltb in Hgt. apply Z.ltb_ge in Hgt. lia.
  - rewrite (loop_settles fuel attemtp w Hother). eauto.
Qed.
End Retry.

Section RetryClaim.
Import WasteCollectionStationService.

(** C2.  A retrieval always returns or raises.  A response that is not 2xx
    raises the HTTP error, unless its status is 429: then the client sleeps
    half the rate-limit period and asks again, at most [max_timeout_retries]
    times; a 429 that comes when the retries are used up is raised.  So [n]
    throttled answers followed by another answer cost [n] sleeps and end in
    that answer when [n] is within the ceiling; in particular two 429s
    followed by a 200 succeed when the ceiling is at least 2, and raise the
    429 after one sleep when it is 1. *)
Theorem C2_retry_on_throttle (self : WasteCollectionStationService.t)
    (server : Server) (headers : gmap string string) (params : gmap string pyval)
    (max_timeout_retries : Z) (w : World) :
  (exists r w', _get_waste_stations self server headers params max_timeout_retries w
                = Some (r, w')) /\
  (forall resp, is_success resp = false ->
                settle resp = Raise (HTTPStatusError (status_code resp))) /\
  (forall n,
     (n <= Z.to_nat max_timeout_retries)%nat ->
     (forall i, (i < n)%nat ->
        status_code (server (requests w ++ repeat (request_for headers params) i)%list
                       (request_for headers params)) = 429) ->
     status_code (server (requests w ++ repeat (request_for headers params) n)%list
                    (request_for headers params)) <> 429 ->
     _get_waste_stations self server headers params max_timeout_retries w =
     Some (settle (server (requests w ++ repeat (request_for headers params) n)%list
                     (request_for headers params)),
           after w (request_for headers params) (S n) (half_period self) n)) /\
  ((forall i, (i <= Z.to_nat max_timeout_retries)%nat ->
      status_code (server (requests w ++ repeat (request_for headers params) i)%list
                     (request_for headers params)) = 429) ->
   _get_waste_stations self server headers params max_timeout_retries w =
   Some (Raise (HTTPStatusError 429),
         after w (request_for headers params) (S (Z.to_nat max_timeout_retries))
           (half_period self) (Z.to_nat max_timeout_retries))) /\
  (forall page,
     server (requests w) (request_for headers params) = throttled ->
     server (requests w ++ [request_for headers params])%list
       (request_for headers params) = throttled ->
     server (requests w ++ [request_for headers params; request_for headers params])%list
       (request_for headers params) = ok_response page ->
     (2 <= max_timeout_retries ->
      _get_waste_stations self server headers params max_timeout_retries w =
      Some (Ok page, after w (request_for headers params) 3 (half_period self) 2)) /\
     (max_timeout_retries = 1 ->
      _get_waste_stations self server headers params max_timeout_retries w =
      Some (Raise (HTTPStatusError 429),
            after w (request_for headers params) 2 (half_period self) 1))).
Proof.
  assert (Hrecover : forall n,
     (n <= Z.to_nat max_timeout_retries)%nat ->
     (forall i, (i < n)%nat ->
        status_code (server (requests w ++ repeat (request_for headers params) i)%list
                       (request_for headers params)) = 429) ->
     status_code (server (requests w ++ repeat (request_for headers params) n)%list
                    (request_for headers params)) <> 429 ->
     _get_waste_stations self server headers params max_timeout_retries w =
     Some (settle (server (requests w ++ repeat (request_for headers params) n)%list
                     (request_for headers params)),
           after w (request_for headers params) (S n) (half_period self) n)).
  { intros n Hn Hthrottle Hlast. unfold _get_waste_stations.
    apply loop_recovers; [assumption | assumption | lia | lia]. }
  assert (Hgiveup :
    (forall i, (i <= Z.to_nat max_timeout_retries)%nat ->
      status_code (server (requests w ++ repeat (request_for headers params) i)%list
                     (request_for headers params)) = 429) ->
   _get_waste_stations self server headers params max_timeout_retries w =
   Some (Raise (HTTPStatusError 429),
         after w (request_for headers params) (S (Z.to_nat max_timeout_retries))
           (half_period self) (Z.to_nat max_timeout_retries))).
  { intros Hthrottle. unfold _get_waste_stations.
    apply loop_gives_up; [f_equal; lia | assumption | lia]. }
  split; [| split; [| split; [| split]]].
  - destruct (loop_returns self server headers params max_timeout_retries
                (S (Z.to_nat max_timeout_retries)) 1 w) as [[r w'] Hr]; [lia |].
    exists r, w'. exact Hr.
  - intros resp Hresp. unfold settle. rewrite Hresp. reflexivity.
  - exact Hrecover.
  - exact Hgiveup.
  - intros page H0 H1 H2. split.
    + intros Hmax. rewrite (Hrecover 2%nat).
      * simpl. rewrite H2. reflexivity.
      * lia.
      * intros [| [| i]] Hi; simpl; [rewrite app_nil_r, H0 | rewrite H1 | lia];
          reflexivity.
      * simpl. rewrite H2. discriminate.
    + intros ->. rewrite Hgiveup; [reflexivity |].
      intros [| [| i]] Hi; simpl; [rewrite app_nil_r, H0 | rewrite H1 | ];
        try reflexivity.
      simpl in Hi. lia.
Qed.
End RetryClaim.

Section RetryExample.
Import WasteCollectionStationService.

Lemma C2_retry_on_throttle_witness :
  _get_waste_stations (init "token")
    (mock [throttled; throttled; ok_response (page_of 2)])
    (_get_headers (init "token")) ∅ 2 fresh =
  Some (Ok (page_of 2),
        {| requests := repeat (request_for (_get_headers (init "token")) ∅) 3;
           sleeps := [Qmake 20 2; Qmake 20 2];
           slots := [] |}) /\
  _get_waste_stations (init "token")
    (mock [throttled; throttled; ok_response (page_of 2)])
    (_get_headers (init "token")) ∅ 1 fresh =
  Some (Raise (HTTPStatusError 429),
        {| requests := repeat (request_for (_get_headers (init "token")) ∅) 2;
           sleeps := [Qmake 20 2];
           slots := [] |}).
Proof.
  pose proof (C2_retry_on_throttle (init "token")
                (mock [throttled; throttled; ok_response (page_of 2)])
                (_get_headers (init "token")) ∅ 2 fresh) as (_ & _ & _ & _ & Htwo).
  pose proof (C2_retry_on_throttle (init "token")
                (mock [throttled; throttled; ok_response (page_of 2)])
                (_get_headers (init "token")) ∅ 1 fresh) as (_ & _ & _ & _ & Hone).
  split.
  - apply (proj1 (Htwo (page_of 2) eq_refl eq_refl eq_refl)). lia.
  - apply (proj2 (Hone (page_of 2) eq_refl eq_refl eq_refl)). reflexivity.
Defined.
End RetryExample.

(** ** Paginated retrieval *)

Section Pagination.
Import WasteCollectionStationService.
Import WasteCollectionStationFeatureCollection.

Variable self : WasteCollectionStationService.t.
Variable server : Server.
Variable limiter : Z * Z.
Variable headers : gmap string string.
Variable limit : option Z.
Variable max_timeout_retries : Z.

(** A 200 with a valid body is returned at the first attempt. *)
Lemma fetch_ok (d : gmap string pyval) (w : World) (page : FeatureCollection) :
  server (requests w) (request_for headers d) = ok_response page ->
  _get_waste_stations self server headers d max_timeout_retries w =
  Some (Ok page, {| requests := (requests w ++ [request_for headers d])%list;
                    sleeps := sleeps w; slots := slots w |}).
Proof.
  intros Hresp. unfold _get_waste_stations.
  rewrite loop_settles by (rewrite Hresp; discriminate).
  rewrite Hresp. unfold after. simpl. rewrite app_nil_r. reflexivity.
Qed.

Lemma page_size_nonempty (page : FeatureCollection) :
  match nonempty (features page) with
  | Some fs => page_size page = Z.of_nat (length fs) /\ page_size page <> 0
  | None => page_size page = 0
  end.
Proof.
  unfold page_size, len. destruct (features page) as [[| f fs] |]; simpl;
    [reflexivity | split; [reflexivity | lia] | reflexivity].
Qed.

(** The code after the [yield] agrees with the spec's rule. *)
Lemma advance_stops (d : gmap string pyval) (page : FeatureCollection) :
  ends_sequence limit page = true -> advance limit d page = Stop.
Proof.
  unfold ends_sequence, advance, limit_set.
  pose proof (page_size_nonempty page) as Hsize.
  destruct (nonempty (features page)) as [fs |]; [| reflexivity].
  destruct Hsize as [Hsize Hne]. apply Z.eqb_neq in Hne. rewrite Hne. simpl.
  destruct limit as [l |]; [| discriminate].
  destruct (l =? 0); simpl; [discriminate |].
  rewrite <- Hsize. intros ->. reflexivity.
Qed.

Lemma advance_moves (d : gmap string pyval) (page : FeatureCollection) (o : Z) :
  ends_sequence limit page = false -> d !! "offset" = Some (PInt o) ->
  advance limit d page = Continue (<["offset" := PInt (o + stride limit page)]> d).
Proof.
  unfold ends_sequence, advance, limit_set, stride, add_offset.
  pose proof (page_size_nonempty page) as Hsize.
  intros Hgo Hoff. apply orb_false_iff in Hgo as [Hne Hshort].
  destruct (nonempty (features page)) as [fs |];
    [| rewrite Hsize in Hne; discriminate].
  destruct Hsize as [Hsize _]. rewrite Hoff.
  destruct limit as [l |]; [| rewrite Hsize; reflexivity].
  destruct (l =? 0); simpl in *; [rewrite Hsize; reflexivity |].
  rewrite <- Hsize, Hshort. reflexivity.
Qed.

Lemma queries_insert (d : gmap string pyval) (x : pyval) (o : Z)
    (received : list FeatureCollection) :
  queries limit (<["offset" := x]> d) o received = queries limit d o received.
Proof.
  revert o. induction received as [| page rest IH]; intros o; simpl.
  - rewrite insert_insert_eq. reflexivity.
  - rewrite insert_insert_eq, IH. reflexivity.
Qed.

(** Pages that do not end the sequence, followed by one that does: the loop
    yields them all, one request each, and stops. *)
Lemma iter_loop_run (received : list FeatureCollection) (last : FeatureCollection) :
  forall (fuel : nat) (d : gmap string pyval) (o : Z) (w : World),
    d !! "offset" = Some (PInt o) ->
    Forall (fun page => ends_sequence limit page = false) received ->
    ends_sequence limit last = true ->
    answers_in_turn server (length (requests w))
      (map ok_response (received ++ [last])) ->
    (length received < fuel)%nat ->
    iter_loop self server limiter headers limit max_timeout_retries fuel d w =
    {| pages := (received ++ [last])%list;
       ended := Exhausted;
       world := {| requests :=
                     (requests w ++
                      map (request_for headers) (queries limit d o received))%list;
                   sleeps := sleeps w;
                   slots := (slots w ++ repeat limiter (S (length received)))%list |} |}.
Proof.
  induction received as [| page rest IH];
    intros fuel d o w Hoff Hgo Hend Hserver Hfuel;
    (destruct fuel as [| fuel]; [simpl in Hfuel; lia |]); simpl.
  - rewrite (fetch_ok d _ last).
    + rewrite (advance_stops d last Hend). simpl.
      rewrite (insert_id d "offset" (PInt o) Hoff). reflexivity.
    + simpl. apply (Hserver O); [reflexivity | lia].
  - inversion Hgo as [| ? ? Hpage Hrest]; subst.
    rewrite (fetch_ok d _ page).
    + rewrite (advance_moves d page o Hpage Hoff).
      rewrite (IH fuel _ (o + stride limit page)); simpl.
      * rewrite queries_insert, (insert_id d "offset" (PInt o) Hoff),
          <- !app_assoc. reflexivity.
      * apply lookup_insert_eq.
      * assumption.
      * assumption.
      * intros i resp log req Hnth Hlen. apply (Hserver (S i)); [exact Hnth |].
        rewrite Hlen, length_app. simpl. lia.
      * simpl in Hfuel. lia.
    + simpl. apply (Hserver O); [reflexivity | lia].
Qed.
End Pagination.

Section PaginationClaim.
Import WasteCollectionStationService.
Import WasteCollectionStationServiceGetParams.

Lemma emitted_offset (p : Params.t) :
  (emitted (model_fields_set p) "offset" (offset p) (Z.eqb 0) ser_int = None /\
   first_offset p = 0) \/
  (emitted (model_fields_set p) "offset" (offset p) (Z.eqb 0) ser_int =
     Some (Ok (PInt (first_offset p)))).
Proof.
  unfold emitted, first_offset.
  destruct (bool_decide ("offset" ∈ model_fields_set p)); [| auto].
  destruct (offset p) as [v |]; [| auto].
  destruct (Z.eqb_spec 0 v) as [<- | Hv]; simpl; auto.
Qed.

(** The dictionary the loop starts from carries the first offset. *)
Lemma start_offset (p : Params.t) (d0 : gmap string pyval) :
  _get_params p = Ok d0 ->
  match d0 !! "offset" with
  | None => <["offset" := PInt 0]> d0
  | Some _ => d0
  end = <["offset" := PInt (first_offset p)]> d0.
Proof.
  unfold _get_params. pose proof (model_dump_layers p) as Hdump. simpl in Hdump.
  rewrite Hdump. destruct (raises _); [discriminate |]. intros [= <-].
  clear Hdump.
  set (e := emitted (model_fields_set p) "offset" (offset p) (Z.eqb 0) ser_int).
  match goal with |- match ?D !! _ with _ => _ end = _ => set (d := D) end.
  assert (Hlookup : d !! "offset" = match e with Some (Ok x) => Some x | _ => None end).
  { subst d. repeat (rewrite lookup_layer_ne by discriminate).
    rewrite lookup_layer, decide_True by reflexivity.
    repeat (rewrite lookup_layer_ne by discriminate). rewrite lookup_empty.
    destruct e as [[x | err] |]; reflexivity. }
  rewrite Hlookup.
  destruct (emitted_offset p) as [[He Hzero] | He]; fold e in He; rewrite He in *.
  - rewrite Hzero. reflexivity.
  - symmetry. apply insert_id. exact Hlookup.
Qed.
(** C1, as the code has it.  The limit is the one of the parameter object:
    the caller's, or the default 10000 when the caller passes none.  After a
    page is yielded, the sequence stops when the page is empty, or when the
    limit is non-zero and the page is shorter than it; otherwise the offset
    of the next request moves by the limit when it is non-zero, and by the
    size of the page when it is [None] or 0.  A server that answers with
    pages that do not stop the sequence, then with one that does, sees one
    request per page and has all of them yielded, after which the sequence
    is over.  With limit 10000, pages of sizes 10000, 10000 and 4321 give
    exactly three pages; pages of sizes 10000, 10000, 10000 are followed by
    a fourth request, whose empty page is yielded and ends the sequence.  A
    call without parameters is a call with the default ones, whose limit is
    10000. *)
Theorem C1_pagination (self : WasteCollectionStationService.t) (server : Server)
    (p : Params.t) (limit_rate : option bool) (max_timeout_retries : option Z)
    (w : World) :
  (forall d page,
     ends_sequence (limit p) page = true -> advance (limit p) d page = Stop) /\
  (forall d page o,
     ends_sequence (limit p) page = false -> d !! "offset" = Some (PInt o) ->
     advance (limit p) d page =
     Continue (<["offset" := PInt (o + stride (limit p) page)]> d)) /\
  (forall d0 received last fuel,
     _get_params p = Ok d0 ->
     Forall (fun page => ends_sequence (limit p) page = false) received ->
     ends_sequence (limit p) last = true ->
     answers_in_turn server (length (requests w))
       (map ok_response (received ++ [last])) ->
     (length received < fuel)%nat ->
     iter_waste_stations self server (Some p) limit_rate max_timeout_retries fuel w =
     finished_run self limit_rate w (received ++ [last])
       (queries (limit p) d0 (first_offset p) received)) /\
  (forall d0 p1 p2 p3 fuel,
     limit p = Some 10000 -> _get_params p = Ok d0 ->
     page_size p1 = 10000 -> page_size p2 = 10000 -> page_size p3 = 4321 ->
     answers_in_turn server (length (requests w))
       [ok_response p1; ok_response p2; ok_response p3] ->
     (2 < fuel)%nat ->
     iter_waste_stations self server (Some p) limit_rate max_timeout_retries fuel w =
     finished_run self limit_rate w [p1; p2; p3]
       [<["offset" := PInt (first_offset p)]> d0;
        <["offset" := PInt (first_offset p + 10000)]> d0;
        <["offset" := PInt (first_offset p + 20000)]> d0]) /\
  (forall d0 p1 p2 p3 p4 fuel,
     limit p = Some 10000 -> _get_params p = Ok d0 ->
     page_size p1 = 10000 -> page_size p2 = 10000 -> page_size p3 = 10000 ->
     page_size p4 = 0 ->
     answers_in_turn server (length (requests w))
       [ok_response p1; ok_response p2; ok_response p3; ok_response p4] ->
     (3 < fuel)%nat ->
     iter_waste_stations self server (Some p) limit_rate max_timeout_retries fuel w =
     finished_run self limit_rate w [p1; p2; p3; p4]
       [<["offset" := PInt (first_offset p)]> d0;
        <["offset" := PInt (first_offset p + 10000)]> d0;
        <["offset" := PInt (first_offset p + 20000)]> d0;
        <["offset" := PInt (first_offset p + 30000)]> d0]) /\
  (forall fuel,
     iter_waste_stations self server None limit_rate max_timeout_retries fuel w =
     iter_waste_stations self server (Some defaults) limit_rate max_timeout_retries
       fuel w) /\
  limit defaults = Some 10000.
Proof.
  assert (Hrun : forall d0 received last fuel,
     _get_params p = Ok d0 ->
     Forall (fun page => ends_sequence (limit p) page = false) received ->
     ends_sequence (limit p) last = true ->
     answers_in_turn server (length (requests w))
       (map ok_response (received ++ [last])) ->
     (length received < fuel)%nat ->
     iter_waste_stations self server (Some p) limit_rate max_timeout_retries fuel w =
     finished_run self limit_rate w (received ++ [last])
       (queries (limit p) d0 (first_offset p) received)).
  { intros d0 received last fuel Hd0 Hgo Hend Hserver Hfuel.
    unfold iter_waste_stations. simpl. rewrite Hd0, (start_offset p d0 Hd0).
    rewrite (iter_loop_run self server _ (_get_headers self) (limit p) _
               received last fuel _ (first_offset p) w);
      [| apply lookup_insert_eq | assumption ..].
    unfold finished_run, limiter_for.
    rewrite queries_insert, length_app, Nat.add_1_r. reflexivity. }
  split; [| split; [| split; [| split; [| split]]]]; cycle 5.
  { split; reflexivity. }
  - intros d page. apply advance_stops.
  - intros d page o. apply advance_moves.
  - exact Hrun.
  - intros d0 p1 p2 p3 fuel Hlimit Hd0 H1 H2 H3 Hserver Hfuel.
    rewrite (Hrun d0 [p1; p2] p3 fuel Hd0); [| | | exact Hserver | exact Hfuel].
    + simpl. unfold stride. rewrite Hlimit. simpl.
      replace (first_offset p + 10000 + 10000) with (first_offset p + 20000) by lia.
      reflexivity.
    + repeat constructor; unfold ends_sequence; rewrite Hlimit, ?H1, ?H2; reflexivity.
    + unfold ends_sequence. rewrite Hlimit, H3. reflexivity.
  - intros d0 p1 p2 p3 p4 fuel Hlimit Hd0 H1 H2 H3 H4 Hserver Hfuel.
    rewrite (Hrun d0 [p1; p2; p3] p4 fuel Hd0); [| | | exact Hserver | exact Hfuel].
    + simpl. unfold stride. rewrite Hlimit. simpl.
      replace (first_offset p + 10000 + 10000) with (first_offset p + 20000) by lia.
      replace (first_offset p + 20000 + 10000) with (first_offset p + 30000) by lia.
      reflexivity.
    + repeat constructor; unfold ends_sequence; rewrite Hlimit, ?H1, ?H2, ?H3;
        reflexivity.
    + unfold ends_sequence. rewrite H4. reflexivity.
Qed.
End PaginationClaim.

Section PaginationExample.
Import WasteCollectionStationService.
Import WasteCollectionStationServiceGetParams.

Lemma mock_answers_in_turn (responses : list Response) :
  answers_in_turn (mock responses) 0 responses.
Proof.
  intros i resp log req Hnth Hlen. unfold mock. rewrite Hlen. simpl.
  apply nth_error_nth. exact Hnth.
Qed.

Lemma page_size_page_of (n : Z) : 0 <= n -> page_size (page_of n) = n.
Proof.
  intros Hn. unfold page_size, page_of, collection,
    WasteCollectionStationFeatureCollection.len. simpl.
  rewrite repeat_length. apply Z2Nat.id. exact Hn.
Qed.

Lemma C1_pagination_witness :
  iter_waste_stations (init "token")
    (mock [ok_response (page_of 10000); ok_response (page_of 10000);
           ok_response (page_of 4321)])
    (Some defaults) None None 5 fresh =
  finished_run (init "token") None fresh
    [page_of 10000; page_of 10000; page_of 4321]
    [{["offset" := PInt 0]}; {["offset" := PInt 10000]};
     {["offset" := PInt 20000]}] /\
  iter_waste_stations (init "token")
    (mock [ok_response (page_of 10000); ok_response (page_of 10000);
           ok_response (page_of 10000); ok_response (page_of 0)])
    (Some defaults) None None 5 fresh =
  finished_run (init "token") None fresh
    [page_of 10000; page_of 10000; page_of 10000; page_of 0]
    [{["offset" := PInt 0]}; {["offset" := PInt 10000]};
     {["offset" := PInt 20000]}; {["offset" := PInt 30000]}].
Proof.
  split.
  - pose proof (C1_pagination (init "token")
        (mock [ok_response (page_of 10000); ok_response (page_of 10000);
               ok_response (page_of 4321)])
        defaults None None fresh) as (_ & _ & _ & Hthree & _).
    apply (Hthree ∅ (page_of 10000) (page_of 10000) (page_of 4321) 5%nat
             eq_refl eq_refl).
    + apply page_size_page_of. lia.
    + apply page_size_page_of. lia.
    + apply page_size_page_of. lia.
    + apply mock_answers_in_turn.
    + lia.
  - pose proof (C1_pagination (init "token")
        (mock [ok_response (page_of 10000); ok_response (page_of 10000);
               ok_response (page_of 10000); ok_response (page_of 0)])
        defaults None None fresh) as (_ & _ & _ & _ & Hfour & _).
    apply (Hfour ∅ (page_of 10000) (page_of 10000) (page_of 10000) (page_of 0) 5%nat
             eq_refl eq_refl).
    + apply page_size_page_of. lia.
    + apply page_size_page_of. lia.
    + apply page_size_page_of. lia.
    + reflexivity.
    + apply mock_answers_in_turn.
    + lia.
Defined.

(** C1 as stated does not hold.  A caller who passes no limit has requested
    none, so by the claim a page of 3 features does not end the sequence
    and moves the offset by 3; the code, whose limit is then 10000, yields
    that page and stops, after a single request. *)
Lemma C1_counterexample :
  requested_limit defaults = None /\
  ends_sequence (requested_limit defaults) (page_of 3) = false /\
  stride (requested_limit defaults) (page_of 3) = 3 /\
  iter_waste_stations (init "token")
    (mock [ok_response (page_of 3); ok_response (page_of 5); ok_response (page_of 0)])
    None None None 5 fresh =
  finished_run (init "token") None fresh [page_of 3] [{["offset" := PInt 0]}] /\
  finished_run (init "token") None fresh [page_of 3] [{["offset" := PInt 0]}] <>
  finished_run (init "token") None fresh [page_of 3; page_of 5; page_of 0]
    (queries (requested_limit defaults) ∅ 0 [page_of 3; page_of 5]).
Proof.
  split; [reflexivity |]. split; [reflexivity |]. split; [reflexivity |].
  split; [vm_compute; reflexivity |].
  intros Heq. apply (f_equal (fun r => length (pages r))) in Heq.
  simpl in Heq. discriminate Heq.
Qed.
End PaginationExample.

(** * Further properties *)

(** ** Membership, union and difference together *)

Module Import AlgebraLaws.
Import WasteCollectionStationFeatureCollection.

Lemma named_app (n : string) (fs gs : list Feature) :
  named n (fs ++ gs) = named n fs || named n gs.
Proof. unfold named. apply existsb_app. Qed.

Lemma novel_app (fs gs : list Feature) (f : Feature) :
  novel (fs ++ gs) f = novel fs f && novel gs f.
Proof.
  unfold novel. destruct (properties f) as [s |]; [| reflexivity].
  rewrite named_app. apply negb_orb.
Qed.

Lemma named_cons (n : string) (g : Feature) (gs : list Feature) :
  named n (g :: gs) =
  match properties g with
  | Some s => String.eqb (name s) n
  | None => false
  end || named n gs.
Proof. reflexivity. Qed.

Lemma named_filter_novel (n : string) (fs gs : list Feature) :
  named n (List.filter (novel fs) gs) = named n gs && negb (named n fs).
Proof.
  induction gs as [| g gs IH]; [reflexivity |].
  cbn [List.filter]. rewrite (named_cons n g gs).
  destruct (novel fs g) eqn:Hnov; [rewrite named_cons |]; rewrite IH;
    unfold novel in Hnov; destruct (properties g) as [s |]; simpl;
    try reflexivity; try discriminate.
  - destruct (String.eqb_spec (name s) n) as [<- | _]; simpl; [| reflexivity].
    apply negb_true_iff in Hnov. rewrite Hnov. reflexivity.
  - destruct (String.eqb_spec (name s) n) as [<- | _]; simpl; [| reflexivity].
    apply negb_false_iff in Hnov. rewrite Hnov. simpl. apply andb_false_r.
Qed.

Lemma novel_filter_novel (fs gs : list Feature) (f : Feature) :
  novel fs f && novel (List.filter (novel fs) gs) f = novel fs f && novel gs f.
Proof.
  assert (H : forall n, named n (List.filter (novel fs) gs) =
                        named n gs && negb (named n fs))
    by (intros n; apply named_filter_novel).
  set (hs := List.filter (novel fs) gs) in *.
  unfold novel. destruct (properties f) as [s |]; [| reflexivity].
  rewrite H.
  destruct (named (name s) fs), (named (name s) gs); reflexivity.
Qed.

Lemma filter_filter_and {A} (p q : A -> bool) (l : list A) :
  List.filter p (List.filter q l) = List.filter (fun x => q x && p x) l.
Proof.
  induction l as [| x l IH]; simpl; [reflexivity |].
  destruct (q x); simpl; [destruct (p x) |]; rewrite ?IH; reflexivity.
Qed.

(** [__add__] as one record. *)
Lemma add_eq (A B : t) :
  add A B = {| type := type A;
               features := Some (iter A ++ List.filter (novel (iter A)) (iter B))%list |}.
Proof.
  pose proof (add_features A B) as Hf.
  assert (Ht : type (add A B) = type A).
  { unfold add.
    destruct (match nonempty (features A) with
              | Some fs => fold_left keep_and_record fs ([], ∅)
              | None => ([], ∅)
              end) as [out seen]. reflexivity. }
  destruct (add A B) as [ty fs]. simpl in *. subst. reflexivity.
Qed.

Lemma iter_add (A B : t) :
  iter (add A B) = (iter A ++ List.filter (novel (iter A)) (iter B))%list.
Proof. rewrite add_eq. reflexivity. Qed.

(** [__sub__], by the emptiness of its operands. *)
Lemma iter_sub (A B : t) :
  iter (sub A B) =
  match iter A, iter B with
  | [], _ => []
  | _ :: _, [] => iter A
  | _ :: _, _ :: _ => List.filter (novel (iter B)) (iter A)
  end.
Proof.
  destruct (iter A) as [| a fs] eqn:EA.
  - unfold iter at 1. rewrite (sub_left_empty A B EA). reflexivity.
  - destruct (iter B) as [| b gs] eqn:EB.
    + rewrite (proj1 (sub_right_empty A B EB)). exact EA.
    + unfold iter at 1. rewrite sub_features, EA, EB by congruence. reflexivity.
Qed.

Lemma any_same_name_stationed (n : string) (fs : list Feature) :
  stationed fs = true -> any_same_name n fs = Ok (named n fs).
Proof.
  unfold stationed, named. induction fs as [| f fs IH]; simpl; [reflexivity |].
  unfold has_station at 1. destruct (properties f) as [s |]; [| discriminate].
  simpl. intros Hfs. rewrite String.eqb_sym.
  destruct (String.eqb (name s) n); [reflexivity | exact (IH Hfs)].
Qed.

Lemma stationed_app (fs gs : list Feature) :
  stationed (fs ++ gs) = stationed fs && stationed gs.
Proof. apply forallb_app. Qed.

Lemma stationed_filter_novel (fs gs : list Feature) :
  stationed (List.filter (novel fs) gs) = true.
Proof.
  unfold stationed. apply forallb_forall. intros f [_ Hf]%filter_In.
  exact (novel_has_station fs f Hf).
Qed.
End AlgebraLaws.

Section AlgebraExtras.
Import WasteCollectionStationFeatureCollection.

(** X1.  Union is associative: [(A + B) + C] and [A + (B + C)] are the same
    collection, type tag and features. *)
Theorem X1_union_assoc (A B C : FeatureCollection) :
  add (add A B) C = add A (add B C).
Proof.
  rewrite (add_eq (add A B) C), (add_eq A (add B C)), !iter_add.
  rewrite (add_eq A B). simpl. f_equal. f_equal.
  rewrite List.filter_app, <- app_assoc. do 2 f_equal.
  rewrite filter_filter_and. apply filter_ext. intros f.
  rewrite novel_app, novel_filter_novel. apply andb_comm.
Qed.

(** X2.  When every feature of [A] carries a station, a value that carries
    a station is in [A + B] exactly when its name is in [A] or in [B], and
    the test does not raise. *)
Theorem X2_union_membership (A B : FeatureCollection)
    (v : Feature) (s : WasteCollectionStation.t) :
  stationed (iter A) = true ->
  properties v = Some s ->
  contains (add A B) v = Ok (named (name s) (iter A) || named (name s) (iter B)).
Proof.
  intros HA Hv. unfold contains. rewrite add_eq, Hv. simpl.
  rewrite any_same_name_stationed
    by (rewrite stationed_app, HA, stationed_filter_novel; reflexivity).
  rewrite named_app, named_filter_novel.
  destruct (named (name s) (iter A)), (named (name s) (iter B)); reflexivity.
Qed.

Lemma X2_union_membership_witness :
  contains (add (collection [feature_named "a"]) (collection [feature_bare; feature_named "b"]))
           (feature_named "b") = Ok true /\
  contains (add (collection [feature_named "a"]) (collection [feature_bare; feature_named "b"]))
           (feature_named "c") = Ok false.
Proof.
  split.
  - exact (X2_union_membership (collection [feature_named "a"])
             (collection [feature_bare; feature_named "b"])
             (feature_named "b") _ eq_refl eq_refl).
  - exact (X2_union_membership (collection [feature_named "a"])
             (collection [feature_bare; feature_named "b"])
             (feature_named "c") _ eq_refl eq_refl).
Defined.

(** X3.  When every feature of [A] carries a station, a value that carries
    a station is in [A - B] exactly when its name is in [A] and not in [B],
    and the test does not raise. *)
Theorem X3_difference_membership (A B : FeatureCollection)
    (v : Feature) (s : WasteCollectionStation.t) :
  stationed (iter A) = true ->
  properties v = Some s ->
  contains (sub A B) v =
  Ok (named (name s) (iter A) && negb (named (name s) (iter B))).
Proof.
  intros HA Hv.
  assert (Hsome : exists fs, features (sub A B) = Some fs /\ iter (sub A B) = fs).
  { unfold sub. destruct (nonempty (features A)); [| eexists; split; reflexivity].
    destruct (nonempty (features B)); eexists; split; reflexivity. }
  destruct Hsome as (fs & Hfs & Hiter). unfold contains. rewrite Hfs, Hv.
  subst fs. rewrite iter_sub in *.
  destruct (iter A) as [| a rest] eqn:EA; [reflexivity |].
  destruct (iter B) as [| b gs] eqn:EB.
  - rewrite any_same_name_stationed by exact HA.
    simpl. rewrite andb_true_r. reflexivity.
  - rewrite any_same_name_stationed by apply stationed_filter_novel.
    apply f_equal, named_filter_novel.
Qed.

Lemma X3_difference_membership_witness :
  contains (sub (collection [feature_named "a"; feature_named "b"])
                (collection [feature_named "b"]))
           (feature_named "a") = Ok true /\
  contains (sub (collection [feature_named "a"; feature_named "b"])
                (collection [feature_named "b"]))
           (feature_named "b") = Ok false.
Proof.
  split.
  - exact (X3_difference_membership
             (collection [feature_named "a"; feature_named "b"])
             (collection [feature_named "b"]) (feature_named "a") _ eq_refl eq_refl).
  - exact (X3_difference_membership
             (collection [feature_named "a"; feature_named "b"])
             (collection [feature_named "b"]) (feature_named "b") _ eq_refl eq_refl).
Defined.

(** X4.  Taking [B] away from [A + B] leaves what taking [B] away from [A]
    leaves, and [A - A] has no features. *)
Theorem X4_difference_cancels (A B : FeatureCollection) :
  iter (sub (add A B) B) = iter (sub A B) /\ iter (sub A A) = [].
Proof.
  split.
  - rewrite !iter_sub, iter_add.
    destruct (iter B) as [| b gs] eqn:EB.
    + simpl. rewrite app_nil_r. destruct (iter A); reflexivity.
    + assert (Hown : List.filter (novel (b :: gs))
                       (List.filter (novel (iter A)) (b :: gs)) = []).
      { apply filter_none. intros f [Hf _]%filter_In.
        apply own_feature_not_novel. exact Hf. }
      destruct (iter A) as [| a fs] eqn:EA.
      * cbn [app].
        destruct (List.filter (novel []) (b :: gs)) eqn:E; [reflexivity |].
        exact Hown.
      * cbn [app]. rewrite app_comm_cons, List.filter_app, Hown, app_nil_r. reflexivity.
  - rewrite iter_sub. destruct (iter A) as [| a fs] eqn:EA; [reflexivity |].
    apply filter_none. intros f. apply own_feature_not_novel.
Qed.
End AlgebraExtras.

Section MembershipExtras.
Import WasteCollectionStationFeatureCollection.

Lemma any_same_name_skip (n : string) (pre rest : list Feature) :
  stationed pre = true -> named n pre = false ->
  any_same_name n (pre ++ rest) = any_same_name n rest.
Proof.
  unfold stationed. induction pre as [| f pre IH]; [reflexivity |].
  rewrite named_cons. cbn [forallb app any_same_name]. unfold has_station at 1.
  destruct (properties f) as [s |]; [| discriminate]. simpl.
  intros Hpre [Hf Hn]%orb_false_iff.
  rewrite String.eqb_sym, Hf. exact (IH Hpre Hn).
Qed.

(** X5.  The membership test answers [False] on a collection without a
    feature list, whatever the value.  With a feature list it raises
    [AttributeError] for a value without properties, and for a value with a
    station it scans the features in order: it answers [True] at the first
    feature of that name, raises at a feature without properties met before
    one, and answers by name when every feature carries a station. *)
Theorem X5_membership_scan (A : FeatureCollection) (v : Feature) :
  (features A = None -> contains A v = Ok false) /\
  (forall fs, features A = Some fs -> properties v = None ->
     contains A v = Raise AttributeError) /\
  (forall fs s, features A = Some fs -> properties v = Some s ->
     stationed fs = true -> contains A v = Ok (named (name s) fs)) /\
  (forall s pre f post,
     features A = Some (pre ++ f :: post)%list -> properties v = Some s ->
     stationed pre = true -> named (name s) pre = false ->
     (properties f = None -> contains A v = Raise AttributeError) /\
     (named (name s) [f] = true -> contains A v = Ok true)).
Proof.
  unfold contains. split; [| split; [| split]].
  - intros ->. reflexivity.
  - intros fs -> ->. reflexivity.
  - intros fs s -> -> Hfs. apply any_same_name_stationed. exact Hfs.
  - intros s pre f post -> -> Hpre Hn.
    rewrite (any_same_name_skip _ pre (f :: post) Hpre Hn).
    split.
    + intros Hf. simpl. rewrite Hf. reflexivity.
    + intros Hf. rewrite named_cons in Hf. simpl.
      destruct (properties f) as [s' |]; [| discriminate].
      rewrite orb_false_r, String.eqb_sym in Hf. rewrite Hf. reflexivity.
Qed.

Lemma X5_membership_scan_witness :
  contains {| type := None; features := None |} feature_bare = Ok false /\
  contains (collection []) feature_bare = Raise AttributeError /\
  contains (collection [feature_named "a"; feature_bare; feature_named "b"])
           (feature_named "b") = Raise AttributeError /\
  contains (collection [feature_named "a"; feature_bare; feature_named "b"])
           (feature_named "a") = Ok true.
Proof.
  split; [| split; [| split]].
  - exact (proj1 (X5_membership_scan {| type := None; features := None |}
                    feature_bare) eq_refl).
  - exact (proj1 (proj2 (X5_membership_scan (collection []) feature_bare))
             [] eq_refl eq_refl).
  - exact (proj1 (proj2 (proj2 (proj2 (X5_membership_scan
             (collection [feature_named "a"; feature_bare; feature_named "b"])
             (feature_named "b"))))
             _ [feature_named "a"] feature_bare [feature_named "b"]
             eq_refl eq_refl eq_refl eq_refl) eq_refl).
  - exact (proj2 (proj2 (proj2 (proj2 (X5_membership_scan
             (collection [feature_named "a"; feature_bare; feature_named "b"])
             (feature_named "a"))))
             _ [] (feature_named "a") [feature_bare; feature_named "b"]
             eq_refl eq_refl eq_refl eq_refl) eq_refl).
Defined.

Lemma names_app (fs gs : list Feature) : names (fs ++ gs) = (names fs ++ names gs)%list.
Proof. unfold names. apply omap_app. Qed.

Lemma names_cons (g : Feature) (gs : list Feature) :
  names (g :: gs) =
  match properties g with
  | Some s => name s :: names gs
  | None => names gs
  end.
Proof. unfold names. simpl. destruct (properties g); reflexivity. Qed.

Lemma named_names (n : string) (fs : list Feature) :
  named n fs = true <-> In n (names fs).
Proof.
  induction fs as [| f fs IH]; [simpl; intuition discriminate |].
  rewrite named_cons, names_cons, orb_true_iff, IH.
  destruct (properties f) as [s |]; simpl.
  - rewrite String.eqb_eq. tauto.
  - intuition discriminate.
Qed.

Lemma names_filter_novel (fs gs : list Feature) :
  names (List.filter (novel fs) gs) =
  List.filter (fun n => negb (named n fs)) (names gs).
Proof.
  induction gs as [| g gs IH]; [reflexivity |].
  cbn [List.filter]. rewrite (names_cons g gs). unfold novel at 1.
  destruct (properties g) as [s |] eqn:Hg; [| exact IH].
  cbn [List.filter].
  destruct (negb (named (name s) fs)); [| exact IH].
  rewrite names_cons, Hg, IH. reflexivity.
Qed.

Lemma NoDup_bool_filter {A} (p : A -> bool) (l : list A) :
  NoDup l -> NoDup (List.filter p l).
Proof.
  induction 1 as [| x l Hx _ IH]; simpl; [constructor |].
  destruct (p x); [| exact IH].
  constructor; [| exact IH].
  intros Hin%list_elem_of_In%filter_In. apply Hx, list_elem_of_In. tauto.
Qed.

(** X6.  The station names of [A + B] are those of [A], followed by the
    names of [B] that [A] does not have, each as often as [B] has it.  So a
    union of two collections without repeated names has no repeated name,
    while a name repeated inside [B] stays repeated. *)
Theorem X6_union_names (A B : FeatureCollection) :
  names (iter (add A B)) =
    (names (iter A) ++
     List.filter (fun n => negb (named n (iter A))) (names (iter B)))%list /\
  (NoDup (names (iter A)) -> NoDup (names (iter B)) ->
   NoDup (names (iter (add A B)))).
Proof.
  assert (Hnames : names (iter (add A B)) =
    (names (iter A) ++
     List.filter (fun n => negb (named n (iter A))) (names (iter B)))%list).
  { rewrite iter_add, names_app, names_filter_novel. reflexivity. }
  split; [exact Hnames |].
  intros HA HB. rewrite Hnames. apply NoDup_app. split; [exact HA |]. split.
  - intros n Hn Hn'. apply list_elem_of_In in Hn, Hn'.
    apply filter_In in Hn' as [_ Hn']. apply negb_true_iff in Hn'.
    apply named_names in Hn. congruence.
  - apply NoDup_bool_filter. exact HB.
Qed.

Lemma X6_union_names_witness :
  NoDup (names (iter (add (collection [feature_named "a"; feature_named "b"])
                          (collection [feature_named "b"; feature_named "c"])))) /\
  names (iter (add (collection [feature_named "a"])
                   (collection [feature_named "c"; feature_named "c"]))) =
    ["a"; "c"; "c"].
Proof.
  split.
  - apply (proj2 (X6_union_names
             (collection [feature_named "a"; feature_named "b"])
             (collection [feature_named "b"; feature_named "c"])));
      repeat (apply NoDup_cons_2;
              [rewrite list_elem_of_In; simpl; intuition discriminate |]);
      apply NoDup_nil_2.
  - rewrite (proj1 (X6_union_names (collection [feature_named "a"])
               (collection [feature_named "c"; feature_named "c"]))).
    reflexivity.
Defined.

(** X7.  A union is at least as long as its left operand and at most as
    long as both operands together; a difference is at most as long as its
    left operand. *)
Theorem X7_lengths (A B : FeatureCollection) :
  len A <= len (add A B) <= len A + len B /\
  0 <= len (sub A B) <= len A.
Proof.
  assert (Hlen : forall C, len C = Z.of_nat (length (iter C))).
  { intros C. unfold len, iter. destruct (features C); reflexivity. }
  rewrite !Hlen, iter_add, iter_sub, length_app.
  pose proof (List.filter_length_le (novel (iter A)) (iter B)).
  split; [lia |].
  destruct (iter A) as [| a fs]; [simpl; lia |].
  destruct (iter B) as [| b gs]; [lia |].
  pose proof (List.filter_length_le (novel (b :: gs)) (a :: fs)). lia.
Qed.
End MembershipExtras.

(** ** More on the domain model *)

Section ModelExtras.

(** X8.  [has_container_for] answers [True] exactly when the station has a
    container list and one of its containers has that trash type; it answers
    [False] exactly when the station has a container list and no container
    of it is known to have that trash type. *)
Theorem X8_has_container_for (st : WasteCollectionStation.t) (trash : ETrashType) :
  (WasteCollectionStation.has_container_for st trash = Some true <->
   exists cs c ty,
     WasteCollectionStation.containers st = Some cs /\ In c cs /\
     Container.trash_type c = Some ty /\ TrashType.id ty = Some trash) /\
  (WasteCollectionStation.has_container_for st trash = Some false <->
   exists cs,
     WasteCollectionStation.containers st = Some cs /\
     forall c, In c cs -> Container.is_suited_for c trash <> Some true).
Proof.
  assert (Hsuited : forall c,
            truthy (Container.is_suited_for c trash) = true <->
            exists ty, Container.trash_type c = Some ty /\ TrashType.id ty = Some trash).
  { intros c. unfold Container.is_suited_for.
    destruct (Container.trash_type c) as [ty |].
    - destruct (TrashType.id ty) as [i |] eqn:Hi; simpl.
      + destruct (bool_decide_reflect (i = trash)) as [-> | Hne]; split.
        * intros _. eauto.
        * reflexivity.
        * discriminate.
        * intros (ty' & [= <-] & Hty). congruence.
      + split; [discriminate |]. intros (ty' & [= <-] & Hty). congruence.
    - simpl. split; [discriminate |]. intros (ty' & Hty & _). discriminate. }
  unfold WasteCollectionStation.has_container_for, any.
  destruct (WasteCollectionStation.containers st) as [cs |]; split; split.
  - intros [= H]. apply existsb_exists in H as (c & Hc & H).
    apply Hsuited in H as (ty & H1 & H2). exists cs, c, ty. auto.
  - intros (cs' & c & ty & [= <-] & Hc & H1 & H2). f_equal.
    apply existsb_exists. exists c. split; [exact Hc |]. apply Hsuited. eauto.
  - intros [= H]. exists cs. split; [reflexivity |]. intros c Hc Hs.
    assert (Hex : existsb (fun x => truthy (Container.is_suited_for x trash)) cs = true)
      by (apply existsb_exists; exists c; rewrite Hs; auto).
    congruence.
  - intros (cs' & [= <-] & Hall). f_equal.
    destruct (existsb _ cs) eqn:Hex; [| reflexivity].
    apply existsb_exists in Hex as (c & Hc & H). exfalso. apply (Hall c Hc).
    destruct (Container.is_suited_for c trash) as [[] |]; simpl in H;
      [reflexivity | discriminate ..].
  - discriminate.
  - intros (cs & c & ty & H & _). discriminate.
  - discriminate.
  - intros (cs & H & _). discriminate.
Qed.

(** X9.  [is_empty] and [is_full] are unknown for the same containers,
    whatever the thresholds.  A container is never both empty and full when
    the empty threshold is below the full one (as 5 is below 95); raising the
    empty threshold keeps an empty container empty, and lowering the full
    threshold keeps a full container full. *)
Theorem X9_empty_full (c : Container.t) (te tf : option Z) :
  (Container.is_empty c te = None <-> Container.is_full c tf = None) /\
  (default 5 te < default 95 tf ->
   ~ (Container.is_empty c te = Some true /\ Container.is_full c tf = Some true)) /\
  (forall te', default 5 te <= default 5 te' ->
     Container.is_empty c te = Some true -> Container.is_empty c te' = Some true) /\
  (forall tf', default 95 tf' <= default 95 tf ->
     Container.is_full c tf = Some true -> Container.is_full c tf' = Some true).
Proof.
  unfold Container.is_empty, Container.is_full.
  destruct (Container.not_monitored c);
    [repeat split; intros; try reflexivity; intuition discriminate |].
  destruct (Container.last_measurement c) as [m |];
    [| repeat split; intros; try reflexivity; intuition discriminate].
  destruct (LastMeasurement.percent_calculated m) as [p |];
    [| repeat split; intros; try reflexivity; intuition discriminate].
  rewrite !leb_decide, !geb_decide.
  split; [split; discriminate |]. split; [| split].
  - intros Hlt [[= He] [= Hf]].
    apply bool_decide_eq_true_1 in He, Hf. lia.
  - intros te' Hle [= He]. rewrite leb_decide. f_equal.
    apply bool_decide_eq_true_1 in He. apply bool_decide_eq_true_2. lia.
  - intros tf' Hle [= Hf]. rewrite geb_decide. f_equal.
    apply bool_decide_eq_true_1 in Hf. apply bool_decide_eq_true_2. lia.
Qed.

Lemma X9_empty_full_witness :
  ~ (Container.is_empty (measured_container 50) None = Some true /\
     Container.is_full (measured_container 50) None = Some true) /\
  Container.is_empty (measured_container 3) (Some 10) = Some true.
Proof.
  split.
  - apply (proj1 (proj2 (X9_empty_full (measured_container 50) None None))).
    simpl. lia.
  - apply (proj1 (proj2 (proj2 (X9_empty_full (measured_container 3) None None)))
             (Some 10)); [simpl; lia | reflexivity].
Defined.

(** X10.  When [period] returns a number it is a digit from 1 to 9, the
    tens digit of the id; it returns nothing exactly when there is no id. *)
Theorem X10_period_digit (cf : CleaningFrequency.t) :
  (forall n, CleaningFrequency.period cf = Ok (Some n) ->
     1 <= n <= 9 /\
     exists i, CleaningFrequency.id cf = Some i /\ 10 * n <= i <= 10 * n + 9) /\
  (CleaningFrequency.period cf = Ok None <-> CleaningFrequency.id cf = None).
Proof.
  unfold CleaningFrequency.period.
  destruct (CleaningFrequency.id cf) as [i |]; [| split; [discriminate | tauto]].
  destruct ((10 <=? i) && (i <=? 99)) eqn:Hi; simpl.
  - apply andb_true_iff in Hi as [H1%Z.leb_le H2%Z.leb_le].
    split; [| split; discriminate].
    pose proof (Z.div_mod i 10 ltac:(lia)) as Hdiv.
    pose proof (Z.mod_pos_bound i 10 ltac:(lia)) as Hmod.
    intros n [= <-]. split; [lia |]. exists i. split; [reflexivity | lia].
  - split; [discriminate | split; discriminate].
Qed.

Lemma X10_period_digit_witness :
  1 <= 7 <= 9 /\ exists i, CleaningFrequency.id (frequency_with_id 73) = Some i /\
                           10 * 7 <= i <= 10 * 7 + 9.
Proof.
  exact (proj1 (X10_period_digit (frequency_with_id 73)) 7 eq_refl).
Defined.
End ModelExtras.

(** ** Pick days *)

Section PickDays.

Lemma EPickDay_of_value_iff (value : string) (d : EPickDay) :
  EPickDay_of_value value = Ok d <-> EPickDay_value d = value.
Proof.
  unfold EPickDay_of_value. split.
  - destruct (find _ EPickDay_members) as [d' |] eqn:Hfind; [| discriminate].
    intros [= ->]. apply find_some in Hfind as [_ Heq].
    apply String.eqb_eq. exact Heq.
  - intros <-. destruct d; reflexivity.
Qed.

Lemma EPickDay_of_value_raises (value : string) :
  (forall d, EPickDay_value d <> value) -> EPickDay_of_value value = Raise ValueError.
Proof.
  intros Hnone. unfold EPickDay_of_value.
  destruct (find _ EPickDay_members) as [d |] eqn:Hfind; [| reflexivity].
  apply find_some in Hfind as [_ Heq]. apply String.eqb_eq in Heq.
  destruct (Hnone d Heq).
Qed.

Lemma comprehension_ok {A B} (f : A -> result B) (l : list A) (ys : list B) :
  comprehension f l = Ok ys <-> Forall2 (fun x y => f x = Ok y) l ys.
Proof.
  revert ys. induction l as [| x l IH]; intros ys; simpl.
  - split; [intros [= <-]; constructor | intros H; inversion H; reflexivity].
  - split.
    + destruct (f x) as [y | e] eqn:Hx; [| discriminate].
      destruct (comprehension f l) as [ys' | e]; [| discriminate].
      intros [= <-]. constructor; [exact Hx | apply IH; reflexivity].
    + intros H. inversion H as [| ? y ? ys' Hx Hrest]; subst.
      rewrite Hx. apply IH in Hrest. rewrite Hrest. reflexivity.
Qed.

Lemma comprehension_raises {A B} (f : A -> result B) (l : list A) (e : exn) :
  (forall x r, f x = Raise r -> r = e) ->
  (exists x, In x l /\ f x = Raise e) -> comprehension f l = Raise e.
Proof.
  intros Honly (x & Hin & Hx). induction l as [| x' l IH]; [contradiction |].
  simpl. destruct (f x') as [y | e'] eqn:Hx'.
  - destruct Hin as [-> | Hin]; [congruence |]. rewrite (IH Hin). reflexivity.
  - f_equal. exact (Honly x' e' Hx').
Qed.

Lemma days_of_pieces (strip : string -> string) (pieces : list string)
    (ds : list EPickDay) :
  Forall2 (fun piece d => EPickDay_of_value (strip piece) = Ok d) pieces ds <->
  map EPickDay_value ds = map strip pieces.
Proof.
  revert ds. induction pieces as [| piece pieces IH]; intros ds.
  - split; [intros H; inversion H; reflexivity |].
    destruct ds; [constructor | discriminate].
  - split.
    + intros H. inversion H as [| ? d ? ds' Hd Hrest]; subst. simpl.
      apply EPickDay_of_value_iff in Hd. apply IH in Hrest. congruence.
    + destruct ds as [| d ds]; [discriminate |]. simpl. intros [= Hd Hrest].
      constructor; [apply EPickDay_of_value_iff; exact Hd | apply IH; exact Hrest].
Qed.

(** X11.  [pick_days_list] is empty when there are no pick days.  Otherwise
    it returns a list of days exactly when their values are the stripped
    comma-separated pieces of the text, one day per piece in order; so it
    never returns an empty list then, and it raises [ValueError] as soon as one
    stripped piece is not the value of a day. *)
Theorem X11_pick_days_list (strip : string -> string) (cf : CleaningFrequency.t) :
  (CleaningFrequency.pick_days cf = None -> pick_days_list strip cf = Ok []) /\
  (forall days, CleaningFrequency.pick_days cf = Some days ->
     (forall ds, pick_days_list strip cf = Ok ds <->
                 map EPickDay_value ds = map strip (split "," days)) /\
     pick_days_list strip cf <> Ok [] /\
     ((exists piece, In piece (split "," days) /\
                     forall d, EPickDay_value d <> strip piece) ->
      pick_days_list strip cf = Raise ValueError)).
Proof.
  unfold pick_days_list. split; [intros ->; reflexivity |].
  intros days ->.
  assert (Hiff : forall ds,
    comprehension (fun day => EPickDay_of_value (strip day)) (split "," days) = Ok ds <->
    map EPickDay_value ds = map strip (split "," days)).
  { intros ds. rewrite comprehension_ok. apply days_of_pieces. }
  split; [exact Hiff |]. split.
  - intros Hempty. apply Hiff in Hempty.
    pose proof (split_nonempty "," days) as Hne.
    destruct (split "," days); [contradiction | discriminate].
  - intros (piece & Hin & Hnone). apply comprehension_raises.
    + intros x r. unfold EPickDay_of_value.
      destruct (find _ EPickDay_members); [discriminate | congruence].
    + exists piece. split; [exact Hin |].
      apply EPickDay_of_value_raises. exact Hnone.
Qed.

Lemma X11_pick_days_list_witness :
  pick_days_list AsciiStrip.strip (frequency_with_days (Some "Po, St ,Ne")) =
    Ok [MONDAY; WEDNESDAY; SUNDAY] /\
  pick_days_list AsciiStrip.strip (frequency_with_days (Some "")) <> Ok [] /\
  pick_days_list AsciiStrip.strip (frequency_with_days None) = Ok [].
Proof.
  split; [| split].
  - apply (proj1 (proj2 (X11_pick_days_list AsciiStrip.strip
             (frequency_with_days (Some "Po, St ,Ne"))) _ eq_refl)).
    reflexivity.
  - exact (proj1 (proj2 (proj2 (X11_pick_days_list AsciiStrip.strip
             (frequency_with_days (Some ""))) _ eq_refl))).
  - exact (proj1 (X11_pick_days_list AsciiStrip.strip (frequency_with_days None))
             eq_refl).
Defined.
End PickDays.

Section PickDaysRoundTrip.

Lemma split_lacks (sep : ascii) (s : string) :
  lacks sep s = true -> split sep s = [s].
Proof.
  induction s as [| c s IH]; simpl; [reflexivity |].
  intros [Hc Hs]%andb_true_iff. apply negb_true_iff in Hc.
  rewrite Hc, (IH Hs). reflexivity.
Qed.

(** [split] undoes [join] on pieces that are free of the separator. *)
Lemma split_concat (sep : ascii) (pieces : list string) :
  pieces <> [] -> forallb (lacks sep) pieces = true ->
  split sep (String.concat (String sep EmptyString) pieces) = pieces.
Proof.
  induction pieces as [| piece rest IH]; [contradiction |].
  intros _ [Hpiece Hrest]%andb_true_iff.
  destruct rest as [| next rest]; [apply split_lacks; exact Hpiece |].
  change (String.concat (String sep "") (piece :: next :: rest))
    with (piece ++ String sep (String.concat (String sep "") (next :: rest))).
  rewrite split_app, (split_lacks sep piece Hpiece), IH; [reflexivity | discriminate |].
  exact Hrest.
Qed.

(** X12.  Joining texts with commas and listing the pick days of the result
    gives back the days the texts stand for: when the texts are free of
    commas, there is at least one, and each strips to the value of a day,
    [pick_days_list] returns these days in order. *)
Theorem X12_pick_days_of_join (strip : string -> string) (cf : CleaningFrequency.t)
    (pieces : list string) (ds : list EPickDay) :
  CleaningFrequency.pick_days cf = Some (String.concat "," pieces) ->
  pieces <> [] -> forallb (lacks ",") pieces = true ->
  map strip pieces = map EPickDay_value ds ->
  pick_days_list strip cf = Ok ds.
Proof.
  intros Hdays Hne Hfree Hvalues. unfold pick_days_list. rewrite Hdays.
  rewrite (split_concat "," pieces Hne Hfree).
  apply comprehension_ok, days_of_pieces. symmetry. exact Hvalues.
Qed.

Lemma X12_pick_days_of_join_witness :
  pick_days_list AsciiStrip.strip (frequency_with_days (Some "Po, St ,Ne")) =
  Ok [MONDAY; WEDNESDAY; SUNDAY].
Proof.
  apply (X12_pick_days_of_join AsciiStrip.strip
           (frequency_with_days (Some "Po, St ,Ne")) ["Po"; " St "; "Ne"]
           [MONDAY; WEDNESDAY; SUNDAY]).
  - reflexivity.
  - discriminate.
  - reflexivity.
  - reflexivity.
Defined.
End PickDaysRoundTrip.

Section PickedDays.
Context `{PyRuntime}.
Variable strip : string -> string.

(** [str.strip] returns a part of its argument. *)
Hypothesis strip_inside : forall s, str_contains (strip s) s = true.

(** A day's value that occurs in a text still occurs after both are
    case-folded. *)
Hypothesis casefold_inside : forall d days,
  str_contains (EPickDay_value d) days = true ->
  str_contains (casefold (EPickDay_value d)) (casefold days) = true.

Lemma prefix_iff (a b : string) :
  String.prefix a b = true <-> exists r, b = a ++ r.
Proof.
  revert b. induction a as [| c a IH]; intros b; simpl.
  - split; [eauto | intros _; destruct b; reflexivity].
  - destruct b as [| c' b]; [split; [discriminate | intros [r [=]]] |].
    simpl. destruct (ascii_dec c c') as [<- | Hne].
    + split.
      * intros [r ->]%IH. exists r. reflexivity.
      * intros [r [= ->]]. apply IH. eauto.
    + split; [discriminate | intros [r [= Hc _]]; congruence].
Qed.

Lemma str_contains_iff (a b : string) :
  str_contains a b = true <-> exists l r, b = l ++ a ++ r.
Proof.
  induction b as [| c b IH].
  - change (str_contains a "") with (String.prefix a "" || false).
    rewrite orb_false_r. split.
    + intros [r Hr]%prefix_iff. exists "", r. exact Hr.
    + intros (l & r & Hb). apply prefix_iff. destruct l; [eauto |]. discriminate.
  - change (str_contains a (String c b))
      with (String.prefix a (String c b) || str_contains a b).
    rewrite orb_true_iff. split.
    + intros [[r Hr]%prefix_iff | (l & r & Hb)%IH].
      * exists "", r. exact Hr.
      * exists (String c l), r. rewrite Hb. reflexivity.
    + intros (l & r & Hb). destruct l as [| c' l].
      * left. apply prefix_iff. eauto.
      * right. apply IH. injection Hb as _ Hb. eauto.
Qed.

Lemma string_app_assoc (a b c : string) : (a ++ b) ++ c = a ++ b ++ c.
Proof.
  induction a as [| x a IH]; [reflexivity |].
  change (String x ((a ++ b) ++ c) = String x (a ++ b ++ c)). rewrite IH. reflexivity.
Qed.

Lemma str_contains_trans (a b c : string) :
  str_contains a b = true -> str_contains b c = true -> str_contains a c = true.
Proof.
  rewrite !str_contains_iff. intros (l & r & ->) (l' & r' & ->).
  exists (l' ++ l), (r ++ r'). rewrite !string_app_assoc. reflexivity.
Qed.

Lemma str_contains_tail (a b : string) (c : ascii) :
  str_contains a b = true -> str_contains a (String c b) = true.
Proof.
  intros Hin. change (str_contains a (String c b))
    with (String.prefix a (String c b) || str_contains a b).
  rewrite Hin. apply orb_true_r.
Qed.

Lemma prefix_inside (a b : string) :
  String.prefix a b = true -> str_contains a b = true.
Proof. intros Hpre. apply str_contains_iff. apply prefix_iff in Hpre as [r ->]. exists "", r. reflexivity. Qed.

(** The first piece of a split text starts the text, and every piece is a
    part of it. *)
Lemma split_parts (sep : ascii) (s : string) :
  match split sep s with
  | first :: pieces =>
      String.prefix first s = true /\
      forall piece, In piece pieces -> str_contains piece s = true
  | [] => False
  end.
Proof.
  induction s as [| c s IH]; simpl split.
  - split; [reflexivity | intros piece []].
  - destruct (split sep s) as [| first pieces]; [contradiction |].
    destruct IH as [Hfirst Hrest].
    destruct (Ascii.eqb c sep).
    + split; [reflexivity |].
      intros piece [<- | Hin]; apply str_contains_tail;
        [apply prefix_inside; exact Hfirst | apply Hrest; exact Hin].
    + split.
      * apply prefix_iff. apply prefix_iff in Hfirst as [r Hr]. exists r.
        rewrite Hr at 1. reflexivity.
      * intros piece Hin. apply str_contains_tail, Hrest, Hin.
Qed.

Lemma split_inside (sep : ascii) (s piece : string) :
  In piece (split sep s) -> str_contains piece s = true.
Proof.
  pose proof (split_parts sep s) as Hparts.
  destruct (split sep s) as [| first pieces]; [contradiction |].
  destruct Hparts as [Hfirst Hrest].
  intros [<- | Hin]; [apply prefix_inside; exact Hfirst | apply Hrest; exact Hin].
Qed.

(** X13.  The two views of the pick days agree in one direction: a day that
    [pick_days_list] lists for a container's cleaning frequency is a day
    on which [is_picked_on] reports the container as picked. *)
Theorem X13_listed_day_is_picked (c : Container.t) (cf : CleaningFrequency.t)
    (ds : list EPickDay) (d : EPickDay) :
  Container.cleaning_frequency c = Some cf ->
  pick_days_list strip cf = Ok ds -> In d ds ->
  Container.is_picked_on c d = Some true.
Proof.
  intros Hcf Hlist Hin. unfold Container.is_picked_on, pick_days_list in *.
  rewrite Hcf. destruct (CleaningFrequency.pick_days cf) as [days |].
  - f_equal. apply casefold_inside.
    apply comprehension_ok, days_of_pieces in Hlist.
    apply (in_map EPickDay_value) in Hin. rewrite Hlist in Hin.
    apply in_map_iff in Hin as (piece & Hpiece & Hin).
    apply (str_contains_trans _ piece).
    + rewrite <- Hpiece. apply strip_inside.
    + apply (split_inside _ _ _ Hin).
  - injection Hlist as <-. destruct Hin.
Qed.
End PickedDays.

Section PickedDaysExample.

Lemma lower_all_app (a b : string) :
  AsciiRuntime.lower_all (a ++ b) =
  AsciiRuntime.lower_all a ++ AsciiRuntime.lower_all b.
Proof.
  induction a as [| c a IH]; [reflexivity |].
  change (String (AsciiRuntime.lower c) (AsciiRuntime.lower_all (a ++ b)) =
          String (AsciiRuntime.lower c)
            (AsciiRuntime.lower_all a ++ AsciiRuntime.lower_all b)).
  rewrite IH. reflexivity.
Qed.

Lemma lower_all_inside (a b : string) :
  str_contains a b = true ->
  str_contains (AsciiRuntime.lower_all a) (AsciiRuntime.lower_all b) = true.
Proof.
  rewrite !str_contains_iff. intros (l & r & ->).
  exists (AsciiRuntime.lower_all l), (AsciiRuntime.lower_all r).
  rewrite !lower_all_app. reflexivity.
Qed.

Lemma lstrip_suffix (s : string) : exists l, s = l ++ AsciiStrip.lstrip s.
Proof.
  induction s as [| c s [l IH]]; [exists ""; reflexivity |].
  simpl. destruct (AsciiStrip.is_space c).
  - exists (String c l). rewrite IH at 1. reflexivity.
  - exists "". reflexivity.
Qed.

Lemma rstrip_prefix (s : string) : exists r, s = AsciiStrip.rstrip s ++ r.
Proof.
  induction s as [| c s [r IH]]; [exists ""; reflexivity |].
  simpl. destruct (AsciiStrip.rstrip s) as [| c' kept].
  - destruct (AsciiStrip.is_space c).
    + exists (String c s). reflexivity.
    + exists r. rewrite IH at 1. reflexivity.
  - exists r. rewrite IH at 1. reflexivity.
Qed.

Lemma strip_inside_ascii (s : string) :
  str_contains (AsciiStrip.strip s) s = true.
Proof.
  apply str_contains_iff. unfold AsciiStrip.strip.
  destruct (lstrip_suffix s) as [l Hl].
  destruct (rstrip_prefix (AsciiStrip.lstrip s)) as [r Hr].
  exists l, r. rewrite <- Hr. exact Hl.
Qed.

Lemma X13_listed_day_is_picked_witness :
  pick_days_list AsciiStrip.strip (frequency_with_days (Some "Po, St")) =
    Ok [MONDAY; WEDNESDAY] /\
  Container.is_picked_on (H := AsciiRuntime.runtime)
    (cleaned_container (frequency_with_days (Some "Po, St"))) WEDNESDAY = Some true.
Proof.
  split; [reflexivity |].
  apply (X13_listed_day_is_picked (H := AsciiRuntime.runtime) AsciiStrip.strip
           strip_inside_ascii (fun d days => lower_all_inside (EPickDay_value d) days)
           (cleaned_container (frequency_with_days (Some "Po, St")))
           (frequency_with_days (Some "Po, St")) [MONDAY; WEDNESDAY] WEDNESDAY).
  - reflexivity.
  - reflexivity.
  - simpl. tauto.
Defined.
End PickedDaysExample.

(** ** The query dictionary *)

Section DumpExtras.
Import WasteCollectionStationServiceGetParams.
Import WasteCollectionStationService.

Lemma raises_accessibilities (p : Params.t) :
  raises (emitted (model_fields_set p) "accessibilities" (accessibilities p) never
            ser_accessibilities) = true <->
  "accessibilities" ∈ model_fields_set p /\
  exists a rest, accessibilities p = Some (a :: rest).
Proof.
  unfold emitted. case_bool_decide as Hset.
  - destruct (accessibilities p) as [[| a rest] |]; simpl; split;
      try discriminate; try (intros (_ & a' & rest' & [=])); eauto.
  - split; [discriminate | tauto].
Qed.

Lemma dump_raises_iff (p : Params.t) (e : exn) :
  _get_params p = Raise e <->
  e = PydanticSerializationError /\ "accessibilities" ∈ model_fields_set p /\
  exists a rest, accessibilities p = Some (a :: rest).
Proof.
  unfold _get_params. pose proof (model_dump_layers p) as Hdump. simpl in Hdump.
  rewrite Hdump. rewrite <- raises_accessibilities.
  destruct (raises _); split.
  - intros [= <-]. auto.
  - intros [-> _]. reflexivity.
  - discriminate.
  - intros [_ [=]].
Qed.

(** X14.  Serializing the parameters fails exactly when the caller passed a
    non-empty accessibility filter, and then with a serialization error.  In
    that case neither kind of retrieval sends a request, sleeps or enters
    the rate limiter: both end with that error at once. *)
Theorem X14_accessibility_filter_fails (self : WasteCollectionStationService.t)
    (server : Server) (p : Params.t) (limit_rate : option bool)
    (max_timeout_retries : option Z) (fuel : nat) (w : World) :
  (forall e, _get_params p = Raise e <->
             e = PydanticSerializationError /\
             "accessibilities" ∈ model_fields_set p /\
             exists a rest, accessibilities p = Some (a :: rest)) /\
  (forall e, _get_params p = Raise e ->
     get_waste_stations self server (Some p) max_timeout_retries w =
       Some (Raise e, w) /\
     iter_waste_stations self server (Some p) limit_rate max_timeout_retries fuel w =
       {| pages := []; ended := Aborted e; world := w |}).
Proof.
  split; [intros e; apply dump_raises_iff |].
  intros e He. unfold get_waste_stations, iter_waste_stations. simpl.
  rewrite He. split; reflexivity.
Qed.

Lemma X14_accessibility_filter_fails_witness :
  get_waste_stations (init "token") (mock [])
    (Some (params_districts_accessibilities [10; 7] [ACCESSIBLE])) None fresh =
    Some (Raise PydanticSerializationError, fresh) /\
  iter_waste_stations (init "token") (mock [])
    (Some (params_districts_accessibilities [10; 7] [ACCESSIBLE])) None None 3 fresh =
    {| pages := []; ended := Aborted PydanticSerializationError; world := fresh |}.
Proof.
  apply (proj2 (X14_accessibility_filter_fails (init "token") (mock [])
                  (params_districts_accessibilities [10; 7] [ACCESSIBLE])
                  None None 3 fresh)).
  vm_compute. reflexivity.
Defined.

Lemma lookup_offset (p : Params.t) (d : gmap string pyval) :
  _get_params p = Ok d ->
  d !! "offset" =
  match emitted (model_fields_set p) "offset" (offset p) (Z.eqb 0) ser_int with
  | Some (Ok x) => Some x
  | _ => None
  end.
Proof.
  unfold _get_params. pose proof (model_dump_layers p) as Hdump. simpl in Hdump.
  rewrite Hdump. destruct (raises _); [discriminate |]. intros [= <-].
  repeat (rewrite lookup_layer_ne by discriminate).
  rewrite lookup_layer, decide_True by reflexivity.
  repeat (rewrite lookup_layer_ne by discriminate). rewrite lookup_empty.
  destruct (emitted _ _ _ _ _) as [[x | err] |]; reflexivity.
Qed.

Lemma lookup_limit (p : Params.t) (d : gmap string pyval) :
  _get_params p = Ok d ->
  d !! "limit" =
  match emitted (model_fields_set p) "limit" (limit p) (Z.eqb 10000) ser_int with
  | Some (Ok x) => Some x
  | _ => None
  end.
Proof.
  unfold _get_params. pose proof (model_dump_layers p) as Hdump. simpl in Hdump.
  rewrite Hdump. destruct (raises _); [discriminate |]. intros [= <-].
  repeat (rewrite lookup_layer_ne by discriminate).
  rewrite lookup_layer, decide_True by reflexivity.
  repeat (rewrite lookup_layer_ne by discriminate). rewrite lookup_empty.
  destruct (emitted _ _ _ _ _) as [[x | err] |]; reflexivity.
Qed.

Lemma lookup_accessibilities (p : Params.t) (d : gmap string pyval) :
  _get_params p = Ok d ->
  d !! "accessibilities" =
  match emitted (model_fields_set p) "accessibilities" (accessibilities p) never
          ser_accessibilities with
  | Some (Ok x) => Some x
  | _ => None
  end.
Proof.
  unfold _get_params. pose proof (model_dump_layers p) as Hdump. simpl in Hdump.
  rewrite Hdump. destruct (raises _); [discriminate |]. intros [= <-].
  repeat (rewrite lookup_layer_ne by discriminate).
  rewrite lookup_layer, decide_True by reflexivity.
  repeat (rewrite lookup_layer_ne by discriminate). rewrite lookup_empty.
  destruct (emitted _ _ _ _ _) as [[x | err] |]; reflexivity.
Qed.

(** X15.  A value equal to a field's default is never sent, even when the
    caller passed it: a serialized query holds an offset only when the
    caller set one other than 0, a limit only when the caller set one other
    than 10000 (both as the integers set), and an accessibility filter only
    when the caller set the empty one, as the empty text. *)
Theorem X15_defaults_not_sent (p : Params.t) (d : gmap string pyval) :
  _get_params p = Ok d ->
  (forall v, d !! "offset" = Some v <->
     exists o, v = PInt o /\ o <> 0 /\ offset p = Some o /\
               "offset" ∈ model_fields_set p) /\
  (forall v, d !! "limit" = Some v <->
     exists l, v = PInt l /\ l <> 10000 /\ limit p = Some l /\
               "limit" ∈ model_fields_set p) /\
  (forall v, d !! "accessibilities" = Some v <->
     v = PStr "" /\ accessibilities p = Some [] /\
     "accessibilities" ∈ model_fields_set p).
Proof.
  intros Hd. split; [| split]; intros v.
  - rewrite (lookup_offset p d Hd). unfold emitted.
    case_bool_decide as Hset;
      [| split; [discriminate | intros (o & _ & _ & _ & Hin); contradiction]].
    destruct (offset p) as [o |];
      [| split; [discriminate | intros (o & _ & _ & [=] & _)]].
    destruct (Z.eqb_spec 0 o) as [<- | Hne]; simpl; split.
    + discriminate.
    + intros (o & _ & Hne & [= <-] & _). contradiction.
    + intros [= <-]. exists o. auto.
    + intros (o' & -> & _ & [= <-] & _). reflexivity.
  - rewrite (lookup_limit p d Hd). unfold emitted.
    case_bool_decide as Hset;
      [| split; [discriminate | intros (l & _ & _ & _ & Hin); contradiction]].
    destruct (limit p) as [l |];
      [| split; [discriminate | intros (l & _ & _ & [=] & _)]].
    destruct (Z.eqb_spec 10000 l) as [<- | Hne]; simpl; split.
    + discriminate.
    + intros (l & _ & Hne & [= <-] & _). contradiction.
    + intros [= <-]. exists l. auto.
    + intros (l' & -> & _ & [= <-] & _). reflexivity.
  - rewrite (lookup_accessibilities p d Hd). unfold emitted.
    case_bool_decide as Hset;
      [| split; [discriminate | intros (_ & _ & Hin); contradiction]].
    destruct (accessibilities p) as [[| a rest] |]; simpl; split.
    + intros [= <-]. auto.
    + intros (-> & _). reflexivity.
    + discriminate.
    + intros (_ & [=] & _).
    + discriminate.
    + intros (_ & [=] & _).
Qed.

Lemma X15_defaults_not_sent_witness :
  _get_params (params_near {| Coordinates.longitude := "14.4";
                              Coordinates.latitude := "50.1" |} 500 0 10000) =
  Ok {[ "latlng" := PStr "50.1,14.4"; "range" := PInt 500 ]} /\
  ({[ "latlng" := PStr "50.1,14.4"; "range" := PInt 500 ]} : gmap string pyval)
    !! "limit" <> Some (PInt 10000).
Proof.
  split; [vm_compute; reflexivity |].
  intros Hsent.
  apply (proj1 (proj2 (X15_defaults_not_sent
           (params_near {| Coordinates.longitude := "14.4";
                           Coordinates.latitude := "50.1" |} 500 0 10000)
           _ eq_refl)) (PInt 10000)) in Hsent as (l & [= <-] & Hne & _).
  contradiction.
Defined.
End DumpExtras.

(** ** One retrieval against any server *)

Section RetrievalCost.
Import WasteCollectionStationService.

Lemma settle_throttled (resp : Response) :
  status_code resp = 429 -> settle resp = Raise (HTTPStatusError 429).
Proof. intros Hstatus. unfold settle, is_success. rewrite Hstatus. reflexivity. Qed.

(** The loop, whatever the server does: it runs [k + 1] times for some [k]
    within the retries left, is throttled the first [k] times, and ends
    with what the last response settles to. *)
Lemma loop_cost (self : WasteCollectionStationService.t) (server : Server)
    (headers : gmap string string) (params : gmap string pyval)
    (max_timeout_retries : Z) (fuel : nat) :
  forall (attemtp : Z) (w : World),
    (Z.to_nat (max_timeout_retries - attemtp + 1) < fuel)%nat ->
    exists k,
      (k <= Z.to_nat (max_timeout_retries - attemtp + 1))%nat /\
      (forall i, (i < k)%nat ->
         status_code (server (requests w ++ repeat (request_for headers params) i)%list
                        (request_for headers params)) = 429) /\
      get_loop self server headers params max_timeout_retries fuel attemtp w =
      Some (settle (server (requests w ++ repeat (request_for headers params) k)%list
                      (request_for headers params)),
            after w (request_for headers params) (S k) (half_period self) k).
Proof.
  unfold half_period.
  induction fuel as [| fuel IH]; intros attemtp w Hfuel; [lia |].
  destruct (decide (status_code (server (requests w) (request_for headers params)) = 429))
    as [H429 | Hother].
  - rewrite (loop_throttled self server headers params max_timeout_retries
               fuel attemtp w H429).
    destruct (attemtp >? max_timeout_retries) eqn:Hgt.
    + exists O. split; [lia |]. split; [intros i Hi; lia |].
      simpl. rewrite app_nil_r, (settle_throttled _ H429). reflexivity.
    + rewrite Z.gtb_ltb in Hgt. apply Z.ltb_ge in Hgt.
      destruct (IH (attemtp + 1)
                  (after w (request_for headers params) 1
                     (Qmake (rate_limit_period self) 2) 1))
        as (k & Hk & Hthrottled & Hloop); [lia |].
      exists (S k). split; [lia |]. split.
      * intros [| i] Hi; [simpl; rewrite app_nil_r; exact H429 |].
        specialize (Hthrottled i ltac:(lia)). unfold after in Hthrottled.
        simpl in Hthrottled. rewrite <- app_assoc in Hthrottled. exact Hthrottled.
      * rewrite Hloop, after_after.
        unfold after at 1. simpl. rewrite <- app_assoc. reflexivity.
  - rewrite (loop_settles self server headers params max_timeout_retries
               fuel attemtp w Hother).
    exists O. split; [lia |]. split; [intros i Hi; lia |].
    simpl. rewrite app_nil_r. reflexivity.
Qed.

(** X16.  Whatever the server does, [get_waste_stations] with parameters
    that serialize sends the same request [k + 1] times for some [k] that
    does not exceed the ceiling (1 when none is given): the serialized
    query and the token header to the base URL.  The first [k] responses
    are 429s, each followed by one sleep of half the rate-limit period; the
    call ends with what the last response settles to, and never enters the
    rate limiter. *)
Theorem X16_retrieval_cost (self : WasteCollectionStationService.t) (server : Server)
    (p : Params.t) (d : gmap string pyval) (max_timeout_retries : option Z)
    (w : World) :
  _get_params p = Ok d ->
  exists k,
    (k <= Z.to_nat (default 1%Z max_timeout_retries))%nat /\
    (forall i, (i < k)%nat ->
       status_code (server (requests w ++
                            repeat (request_for (_get_headers self) d) i)%list
                      (request_for (_get_headers self) d)) = 429) /\
    get_waste_stations self server (Some p) max_timeout_retries w =
    Some (settle (server (requests w ++
                          repeat (request_for (_get_headers self) d) k)%list
                    (request_for (_get_headers self) d)),
          {| requests := (requests w ++
                          repeat (request_for (_get_headers self) d) (S k))%list;
             sleeps := (sleeps w ++ repeat (half_period self) k)%list;
             slots := slots w |}).
Proof.
  intros Hd. unfold get_waste_stations. simpl. rewrite Hd.
  destruct (loop_cost self server (_get_headers self) d
              (default 1 max_timeout_retries)
              (S (Z.to_nat (default 1 max_timeout_retries))) 1 w)
    as (k & Hk & Hthrottled & Hloop); [lia |].
  exists k. split; [lia |]. split; [exact Hthrottled |]. exact Hloop.
Qed.

Lemma X16_retrieval_cost_witness :
  exists k,
    (k <= 1)%nat /\
    get_waste_stations (init "token") (mock [throttled; ok_response (page_of 2)])
      (Some Params.defaults) None fresh =
    Some (settle (mock [throttled; ok_response (page_of 2)]
                    (repeat (request_for (_get_headers (init "token")) ∅) k)
                    (request_for (_get_headers (init "token")) ∅)),
          {| requests := repeat (request_for (_get_headers (init "token")) ∅) (S k);
             sleeps := repeat (Qmake 20 2) k;
             slots := [] |}).
Proof.
  destruct (X16_retrieval_cost (init "token")
              (mock [throttled; ok_response (page_of 2)])
              Params.defaults ∅ None fresh eq_refl) as (k & Hk & _ & Hrun).
  exists k. split; [exact Hk | exact Hrun].
Defined.
End RetrievalCost.

(** ** Paginated retrieval against any server *)

Section PaginationInvariants.
Import WasteCollectionStationService.
Import WasteCollectionStationFeatureCollection.

Variable self : WasteCollectionStationService.t.
Variable server : Server.
Variable limiter : Z * Z.
Variable headers : gmap string string.
Variable limit : option Z.
Variable max_timeout_retries : Z.

(** After a page the loop stops or moves the offset; it never fails. *)
Lemma advance_cases (d : gmap string pyval) (page : FeatureCollection) (o : Z) :
  d !! "offset" = Some (PInt o) ->
  advance limit d page = Stop \/
  exists o', advance limit d page = Continue (<["offset" := PInt o']> d).
Proof.
  intros Hoff. destruct (ends_sequence limit page) eqn:Hend.
  - left. apply advance_stops. exact Hend.
  - right. eexists. apply advance_moves; eassumption.
Qed.

Lemma offset_only_insert (d : gmap string pyval) (x : pyval) (q : Request) :
  offset_only headers (<["offset" := x]> d) q -> offset_only headers d q.
Proof. intros [o ->]. exists o. rewrite insert_insert_eq. reflexivity. Qed.

(** What every run of the loop keeps, whatever the server does. *)
Lemma iter_loop_any (fuel : nat) :
  forall (d : gmap string pyval) (o : Z) (w : World),
    d !! "offset" = Some (PInt o) ->
    let r := iter_loop self server limiter headers limit max_timeout_retries
               fuel d w in
    exists sent,
      requests (world r) = (requests w ++ sent)%list /\
      Forall (offset_only headers d) sent /\
      (fetches r <= length sent <= fetches r * S (Z.to_nat max_timeout_retries))%nat /\
      sleeps (world r) =
        (sleeps w ++ repeat (half_period self) (length sent - fetches r))%list /\
      slots (world r) = (slots w ++ repeat limiter (fetches r))%list.
Proof.
  induction fuel as [| fuel IH]; intros d o w Hoff; simpl.
  - exists []. unfold fetches. simpl. rewrite !app_nil_r.
    split; [reflexivity |]. split; [constructor |]. split; [lia |]. auto.
  - set (w1 := {| requests := requests w; sleeps := sleeps w;
                  slots := (slots w ++ [limiter])%list |}).
    destruct (loop_cost self server headers d max_timeout_retries
                (S (Z.to_nat max_timeout_retries)) 1 w1)
      as (k & Hk & _ & Hfetch); [lia |].
    unfold _get_waste_stations. rewrite Hfetch. clear Hfetch.
    set (req := request_for headers d) in *.
    assert (Hreq : Forall (offset_only headers d) (repeat req (S k))).
    { apply List.Forall_forall. intros q Hq%repeat_spec. subst q. exists o.
      unfold req. rewrite (insert_id d "offset" (PInt o) Hoff). reflexivity. }
    replace (Z.to_nat (max_timeout_retries - 1 + 1)) with (Z.to_nat max_timeout_retries)
      in Hk by (f_equal; lia).
    destruct (settle (server (requests w1 ++ repeat req k)%list req))
      as [page | e] eqn:Hsettle.
    + destruct (advance_cases d page o Hoff) as [-> | [o' ->]].
      * exists (repeat req (S k)). unfold fetches. cbn [pages ended world after
          requests sleeps slots w1 length Nat.add].
        rewrite repeat_length.
        split; [reflexivity |]. split; [exact Hreq |]. split; [lia |].
        split; [f_equal; f_equal; lia | reflexivity].
      * destruct (IH (<["offset" := PInt o']> d) o'
                    (after w1 req (S k) (half_period self) k)
                    (lookup_insert_eq _ _ _))
          as (sent & Hsent & Hall & Hcount & Hsleeps & Hslots).
        set (r := iter_loop self server limiter headers limit max_timeout_retries
                    fuel (<["offset" := PInt o']> d)
                    (after w1 req (S k) (half_period self) k)) in *.
        exists (repeat req (S k) ++ sent)%list.
        assert (Hfetches : fetches {| pages := page :: pages r; ended := ended r;
                                      world := world r |} = S (fetches r))
          by reflexivity.
        rewrite Hfetches. cbn [world].
        rewrite Hsent, Hsleeps, Hslots, length_app, repeat_length.
        cbn [after requests sleeps slots w1].
        split; [rewrite <- app_assoc; reflexivity |].
        split; [apply Forall_app; split;
                 [exact Hreq | eapply Forall_impl; [exact Hall |];
                               intros q; apply offset_only_insert] |].
        split; [lia |].
        split.
        -- rewrite <- app_assoc, <- repeat_app. f_equal. f_equal. lia.
        -- rewrite <- app_assoc. reflexivity.
    + exists (repeat req (S k)). unfold fetches. cbn [pages ended world after
        requests sleeps slots w1 length Nat.add].
      rewrite repeat_length.
      split; [reflexivity |]. split; [exact Hreq |]. split; [lia |].
      split; [f_equal; f_equal; lia | reflexivity].
Qed.
End PaginationInvariants.

Section PaginationExtras.
Import WasteCollectionStationService.
Import WasteCollectionStationServiceGetParams.

(** The loop of [iter_waste_stations] for parameters that serialize. *)
Lemma iter_waste_stations_loop (self : WasteCollectionStationService.t)
    (server : Server) (p : Params.t) (d0 : gmap string pyval)
    (limit_rate : option bool) (max_timeout_retries : option Z) (fuel : nat)
    (w : World) :
  _get_params p = Ok d0 ->
  iter_waste_stations self server (Some p) limit_rate max_timeout_retries fuel w =
  iter_loop self server (limiter_for self limit_rate) (_get_headers self) (limit p)
    (default 3 max_timeout_retries) fuel
    (<["offset" := PInt (first_offset p)]> d0) w.
Proof.
  intros Hd0. unfold iter_waste_stations. simpl.
  rewrite Hd0, (start_offset p d0 Hd0). reflexivity.
Qed.

(** X17.  Whatever the server does, a paginated retrieval with parameters
    that serialize sends only requests that differ from the serialized query
    in the offset; it enters the rate limiter once per retrieval (one per
    page yielded, and one more when a retrieval failed), not once per
    request; it sends at least one request per retrieval and, in all, at
    most one more than the retry ceiling per retrieval; and it sleeps half
    the rate-limit period once for every request beyond one per
    retrieval. *)
Theorem X17_pagination_accounting (self : WasteCollectionStationService.t)
    (server : Server) (p : Params.t) (d0 : gmap string pyval)
    (limit_rate : option bool) (max_timeout_retries : option Z) (fuel : nat)
    (w : World) :
  _get_params p = Ok d0 ->
  let r := iter_waste_stations self server (Some p) limit_rate max_timeout_retries
             fuel w in
  exists sent,
    requests (world r) = (requests w ++ sent)%list /\
    Forall (offset_only (_get_headers self) d0) sent /\
    (fetches r <= length sent <=
     fetches r * S (Z.to_nat (default 3%Z max_timeout_retries)))%nat /\
    sleeps (world r) =
      (sleeps w ++ repeat (half_period self) (length sent - fetches r))%list /\
    slots (world r) =
      (slots w ++ repeat (limiter_for self limit_rate) (fetches r))%list.
Proof.
  intros Hd0 r. subst r.
  rewrite (iter_waste_stations_loop self server p d0 _ _ _ _ Hd0).
  destruct (iter_loop_any self server (limiter_for self limit_rate)
              (_get_headers self) (limit p) (default 3 max_timeout_retries) fuel
              (<["offset" := PInt (first_offset p)]> d0) (first_offset p) w
              (lookup_insert_eq _ _ _))
    as (sent & Hsent & Hall & Hcount & Hsleeps & Hslots).
  exists sent. split; [exact Hsent |]. split; [| auto].
  eapply Forall_impl; [exact Hall |].
  intros q. apply offset_only_insert.
Qed.

Lemma X17_pagination_accounting_witness :
  exists sent,
    requests (world (iter_waste_stations (init "token")
                       (mock [throttled; ok_response (page_of 2)])
                       (Some defaults) None None 5 fresh)) = ([] ++ sent)%list /\
    Forall (offset_only (_get_headers (init "token")) ∅) sent /\
    (fetches (iter_waste_stations (init "token")
                (mock [throttled; ok_response (page_of 2)])
                (Some defaults) None None 5 fresh) <= length sent <=
     fetches (iter_waste_stations (init "token")
                (mock [throttled; ok_response (page_of 2)])
                (Some defaults) None None 5 fresh) * 4)%nat /\
    sleeps (world (iter_waste_stations (init "token")
                     (mock [throttled; ok_response (page_of 2)])
                     (Some defaults) None None 5 fresh)) =
      ([] ++ repeat (half_period (init "token"))
               (length sent -
                fetches (iter_waste_stations (init "token")
                           (mock [throttled; ok_response (page_of 2)])
                           (Some defaults) None None 5 fresh)))%list /\
    slots (world (iter_waste_stations (init "token")
                    (mock [throttled; ok_response (page_of 2)])
                    (Some defaults) None None 5 fresh)) =
      ([] ++ repeat (8, 20)
               (fetches (iter_waste_stations (init "token")
                           (mock [throttled; ok_response (page_of 2)])
                           (Some defaults) None None 5 fresh)))%list.
Proof.
  exact (X17_pagination_accounting (init "token")
           (mock [throttled; ok_response (page_of 2)]) defaults ∅ None None 5 fresh
           eq_refl).
Defined.

Section Abort.
Variable self : WasteCollectionStationService.t.
Variable server : Server.
Variable limiter : Z * Z.
Variable headers : gmap string string.
Variable limit : option Z.
Variable max_timeout_retries : Z.

(** Pages that do not end the sequence, followed by a response that fails
    and is not retried: the loop yields the pages and then raises. *)
Lemma iter_loop_aborts (received : list FeatureCollection) (bad : Response) (e : exn) :
  forall (fuel : nat) (d : gmap string pyval) (o : Z) (w : World),
    d !! "offset" = Some (PInt o) ->
    Forall (fun page => ends_sequence limit page = false) received ->
    status_code bad <> 429 -> settle bad = Raise e ->
    answers_in_turn server (length (requests w))
      (map ok_response received ++ [bad]) ->
    (length received < fuel)%nat ->
    iter_loop self server limiter headers limit max_timeout_retries fuel d w =
    {| pages := received;
       ended := Aborted e;
       world := {| requests :=
                     (requests w ++
                      map (request_for headers) (queries limit d o received))%list;
                   sleeps := sleeps w;
                   slots := (slots w ++ repeat limiter (S (length received)))%list |} |}.
Proof.
  induction received as [| page rest IH];
    intros fuel d o w Hoff Hgo Hstatus Hbad Hserver Hfuel;
    (destruct fuel as [| fuel]; [simpl in Hfuel; lia |]); simpl.
  - assert (Hresp : server (requests w) (request_for headers d) = bad)
      by (apply (Hserver O); [reflexivity | simpl; lia]).
    unfold _get_waste_stations.
    rewrite loop_settles by (simpl; rewrite Hresp; exact Hstatus).
    simpl. rewrite Hresp, Hbad. unfold after. simpl.
    rewrite app_nil_r, (insert_id d "offset" (PInt o) Hoff). reflexivity.
  - inversion Hgo as [| ? ? Hpage Hrest]; subst.
    rewrite (fetch_ok self server headers max_timeout_retries d _ page).
    + rewrite (advance_moves limit d page o Hpage Hoff).
      rewrite (IH fuel _ (o + stride limit page)); simpl.
      * rewrite queries_insert, (insert_id d "offset" (PInt o) Hoff),
          <- !app_assoc. reflexivity.
      * apply lookup_insert_eq.
      * assumption.
      * assumption.
      * assumption.
      * intros i resp log req Hnth Hlen. apply (Hserver (S i)); [exact Hnth |].
        rewrite Hlen, length_app. simpl. lia.
      * simpl in Hfuel. lia.
    + simpl. apply (Hserver O); [reflexivity | lia].
Qed.

(** Against a server whose every answer is a page that does not end the
    sequence, the loop is still running after any number of pages. *)
Lemma iter_loop_goes_on (fuel : nat) :
  (forall log req, exists page,
     server log req = ok_response page /\ ends_sequence limit page = false) ->
  forall (d : gmap string pyval) (o : Z) (w : World),
    d !! "offset" = Some (PInt o) ->
    ended (iter_loop self server limiter headers limit max_timeout_retries
             fuel d w) = Pending /\
    length (pages (iter_loop self server limiter headers limit max_timeout_retries
                     fuel d w)) = fuel /\
    length (requests (world (iter_loop self server limiter headers limit
                               max_timeout_retries fuel d w))) =
    (length (requests w) + fuel)%nat.
Proof.
  intros Hserver. induction fuel as [| fuel IH]; intros d o w Hoff; simpl.
  - split; [reflexivity |]. split; [reflexivity | lia].
  - destruct (Hserver (requests w) (request_for headers d)) as (page & Hresp & Hgo).
    rewrite (fetch_ok self server headers max_timeout_retries d _ page)
      by exact Hresp.
    rewrite (advance_moves limit d page o Hgo Hoff). simpl.
    destruct (IH (<["offset" := PInt (o + stride limit page)]> d)
                (o + stride limit page)
                {| requests := (requests w ++ [request_for headers d])%list;
                   sleeps := sleeps w;
                   slots := (slots w ++ [limiter])%list |}
                (lookup_insert_eq _ _ _)) as (Hend & Hlen & Hreqs).
    split; [exact Hend |]. split; [f_equal; exact Hlen |].
    rewrite Hreqs. simpl. rewrite length_app. simpl. lia.
Qed.
End Abort.

(** X19.  Pages yielded before a failure are kept: when the server answers
    with pages that do not end the sequence and then with a response that
    fails and is not a 429, the retrieval yields those pages, one request
    each, and only then raises what the failing response settles to. *)
Theorem X19_failure_after_pages (self : WasteCollectionStationService.t)
    (server : Server) (p : Params.t) (d0 : gmap string pyval)
    (limit_rate : option bool) (max_timeout_retries : option Z) (w : World)
    (received : list FeatureCollection) (bad : Response) (e : exn) (fuel : nat) :
  _get_params p = Ok d0 ->
  Forall (fun page => ends_sequence (limit p) page = false) received ->
  status_code bad <> 429 -> settle bad = Raise e ->
  answers_in_turn server (length (requests w)) (map ok_response received ++ [bad]) ->
  (length received < fuel)%nat ->
  iter_waste_stations self server (Some p) limit_rate max_timeout_retries fuel w =
  {| pages := received;
     ended := Aborted e;
     world := {| requests :=
                   (requests w ++
                    map (request_for (_get_headers self))
                      (queries (limit p) d0 (first_offset p) received))%list;
                 sleeps := sleeps w;
                 slots := (slots w ++
                           repeat (limiter_for self limit_rate)
                             (S (length received)))%list |} |}.
Proof.
  intros Hd0 Hgo Hstatus Hbad Hserver Hfuel.
  rewrite (iter_waste_stations_loop self server p d0 _ _ _ _ Hd0).
  rewrite (iter_loop_aborts self server _ (_get_headers self) (limit p) _
             received bad e fuel _ (first_offset p) w);
    [| apply lookup_insert_eq | assumption ..].
  rewrite queries_insert. reflexivity.
Qed.

Lemma X19_failure_after_pages_witness :
  iter_waste_stations (init "token")
    (mock [ok_response (page_of 10000); {| status_code := 503; parsed := None |}])
    (Some defaults) None None 5 fresh =
  {| pages := [page_of 10000];
     ended := Aborted (HTTPStatusError 503);
     world := {| requests :=
                   map (request_for (_get_headers (init "token")))
                     [{["offset" := PInt 0]}; {["offset" := PInt 10000]}];
                 sleeps := [];
                 slots := [(8, 20); (8, 20)] |} |}.
Proof.
  apply (X19_failure_after_pages (init "token")
           (mock [ok_response (page_of 10000); {| status_code := 503; parsed := None |}])
           defaults ∅ None None fresh [page_of 10000]
           {| status_code := 503; parsed := None |} (HTTPStatusError 503) 5 eq_refl).
  - constructor; [| constructor].
    unfold ends_sequence. rewrite page_size_page_of by lia. reflexivity.
  - simpl. lia.
  - reflexivity.
  - apply mock_answers_in_turn.
  - simpl. lia.
Defined.

(** X20.  The retrieval does not end by itself: against a server whose
    every answer is a page that does not end the sequence (a full page when
    a limit is set, a non-empty one when none is), it is still running
    after any number of pages, having sent one request for each. *)
Theorem X20_no_end_of_its_own (self : WasteCollectionStationService.t)
    (server : Server) (p : Params.t) (d0 : gmap string pyval)
    (limit_rate : option bool) (max_timeout_retries : option Z) (w : World)
    (fuel : nat) :
  _get_params p = Ok d0 ->
  (forall log req, exists page,
     server log req = ok_response page /\ ends_sequence (limit p) page = false) ->
  ended (iter_waste_stations self server (Some p) limit_rate max_timeout_retries
           fuel w) = Pending /\
  length (pages (iter_waste_stations self server (Some p) limit_rate
                   max_timeout_retries fuel w)) = fuel /\
  length (requests (world (iter_waste_stations self server (Some p) limit_rate
                             max_timeout_retries fuel w))) =
  (length (requests w) + fuel)%nat.
Proof.
  intros Hd0 Hserver.
  rewrite (iter_waste_stations_loop self server p d0 _ _ _ _ Hd0).
  apply (iter_loop_goes_on self server _ (_get_headers self) (limit p) _ fuel Hserver
           _ (first_offset p)).
  apply lookup_insert_eq.
Qed.

Lemma X20_no_end_of_its_own_witness :
  ended (iter_waste_stations (init "token") (fun _ _ => ok_response (page_of 3))
           (Some (params_near {| Coordinates.longitude := "14.4";
                                 Coordinates.latitude := "50.1" |} 500 0 3))
           None None 4 fresh) = Pending /\
  length (pages (iter_waste_stations (init "token")
                   (fun _ _ => ok_response (page_of 3))
                   (Some (params_near {| Coordinates.longitude := "14.4";
                                         Coordinates.latitude := "50.1" |} 500 0 3))
                   None None 4 fresh)) = 4%nat /\
  length (requests (world (iter_waste_stations (init "token")
                             (fun _ _ => ok_response (page_of 3))
                             (Some (params_near {| Coordinates.longitude := "14.4";
                                                   Coordinates.latitude := "50.1" |}
                                      500 0 3))
                             None None 4 fresh))) = 4%nat.
Proof.
  eapply (X20_no_end_of_its_own (init "token") (fun _ _ => ok_response (page_of 3))
            (params_near {| Coordinates.longitude := "14.4";
                            Coordinates.latitude := "50.1" |} 500 0 3)
            _ None None fresh 4).
  - reflexivity.
  - intros log req. exists (page_of 3). split; reflexivity.
Defined.
End PaginationExtras.
